(** * Reward functions of loco_mujoco ([loco_mujoco/utils/reward.py])

    A shallow embedding of the reward classes and of the fragment of
    Python and numpy they use.  The main embedding reads floating-point
    numbers as real numbers ([R]); the module [Binary64] embeds the classes
    whose results depend on rounding, underflow and overflow a second time,
    on the binary64 numbers of the kernel, to compute what the code returns
    where the two readings differ. *)

From Stdlib Require Import Floats String Reals Lra Lia ZArith Bool List.
Import ListNotations.
Local Open Scope R_scope.

(** ** Python exceptions and the error monad *)

Inductive exn : Type :=
| IndexError
| ValueError
| NotImplementedError
| Exception (msg : string).

Inductive outcome (A : Type) : Type :=
| Ok (a : A)
| Raise (e : exn).

Arguments Ok {A} a.
Arguments Raise {A} e.

Definition bind {A B : Type} (m : outcome A) (k : A -> outcome B) : outcome B :=
  match m with
  | Ok a => k a
  | Raise e => Raise e
  end.

Notation "x <- m ;; k" := (bind m (fun x => k))
  (at level 61, m at next level, right associativity).

(** A keyword argument with a default value: [None] is "not given". *)
Definition kwarg {A : Type} (default : A) (given : option A) : A :=
  match given with
  | Some v => v
  | None => default
  end.

(** ** The numpy fragment *)

Module np.

(** A float (0-d) or a 1-d array of floats.  A boolean array is the
    array of its entries read as 1 ([True]) and 0 ([False]), which is how
    numpy reads them in the products of the source. *)
Inductive ndarray : Type :=
| Scalar (x : R)
| Array (l : list R).

Fixpoint zip_with (f : R -> R -> R) (l1 l2 : list R) : list R :=
  match l1, l2 with
  | a :: l1', b :: l2' => f a b :: zip_with f l1' l2'
  | _, _ => []
  end.

(** An elementwise binary operation with numpy's broadcasting: a scalar or
    an array of length one is stretched, other lengths have to agree. *)
Definition broadcast2 (f : R -> R -> R) (x y : ndarray) : outcome ndarray :=
  match x, y with
  | Scalar a, Scalar b => Ok (Scalar (f a b))
  | Scalar a, Array l => Ok (Array (map (f a) l))
  | Array l, Scalar b => Ok (Array (map (fun u => f u b) l))
  | Array l1, Array l2 =>
      if Nat.eqb (length l1) (length l2) then Ok (Array (zip_with f l1 l2))
      else match l1, l2 with
           | [a], _ => Ok (Array (map (f a) l2))
           | _, [b] => Ok (Array (map (fun u => f u b) l1))
           | _, _ => Raise ValueError
           end
  end.

Definition map1 (f : R -> R) (x : ndarray) : ndarray :=
  match x with
  | Scalar a => Scalar (f a)
  | Array l => Array (map f l)
  end.

Definition add : ndarray -> ndarray -> outcome ndarray := broadcast2 Rplus.
Definition subtract : ndarray -> ndarray -> outcome ndarray := broadcast2 Rminus.
Definition multiply : ndarray -> ndarray -> outcome ndarray := broadcast2 Rmult.

Definition less : ndarray -> ndarray -> outcome ndarray :=
  broadcast2 (fun a b => if Rlt_dec a b then 1 else 0).
Definition greater : ndarray -> ndarray -> outcome ndarray :=
  broadcast2 (fun a b => if Rgt_dec a b then 1 else 0).

Definition abs : ndarray -> ndarray := map1 Rabs.
Definition square : ndarray -> ndarray := map1 Rsqr.

Definition sum_list (l : list R) : R := fold_right Rplus 0 l.

Definition sum (x : ndarray) : R :=
  match x with
  | Scalar a => a
  | Array l => sum_list l
  end.

(** [np.zeros(n)] *)
Definition zeros (n : nat) : list R := repeat 0 n.

(** [np.linalg.norm] of a 1-d array: the Euclidean norm. *)
Definition linalg_norm (l : list R) : R := sqrt (sum_list (map Rsqr l)).

(** [x.astype(int)]: truncation towards zero. *)
Definition astype_int (x : R) : Z :=
  if Rle_dec 0 x then Int_part x else (- Int_part (- x))%Z.

(** [np.packbits(bits, bitorder='big')] on a 1-d integer array: every
    non-zero entry is a set bit, the first entry is the most significant
    bit of the first byte, and the last byte is padded with zero bits.
    [acc] is the byte under construction and [k] the number of bits it
    holds. *)
Fixpoint packbits_from (bits : list Z) (acc : Z) (k : nat) : list Z :=
  match bits with
  | [] => if Nat.eqb k 0 then [] else [Z.shiftl acc (8 - Z.of_nat k)]
  | b :: bits' =>
      let acc' := Z.lor (Z.shiftl acc 1) (if Z.eqb b 0 then 0 else 1)%Z in
      if Nat.eqb (S k) 8 then acc' :: packbits_from bits' 0%Z 0%nat
      else packbits_from bits' acc' (S k)
  end.

Definition packbits (bits : list Z) : list Z := packbits_from bits 0%Z 0%nat.

(** [bytes >> k] on an array of bytes.  For a negative [k] numpy leaves
    the result to the platform; the model follows [Z.shiftr] there and
    nothing below relies on it. *)
Definition right_shift (bytes : list Z) (k : Z) : list Z :=
  map (fun b => Z.shiftr b k) bytes.

End np.

(** ** Python indexing *)

(** [l[i]] for an integer [i]: a negative index counts from the end. *)
Definition getitem {A : Type} (l : list A) (i : Z) : outcome A :=
  let n := Z.of_nat (length l) in
  let j := if (i <? 0)%Z then (i + n)%Z else i in
  if ((0 <=? j) && (j <? n))%Z then
    match nth_error l (Z.to_nat j) with
    | Some v => Ok v
    | None => Raise IndexError
    end
  else Raise IndexError.

(** [state[idx]] for an array of integer indices [idx]. *)
Fixpoint getitems {A : Type} (l : list A) (idx : list Z) : outcome (list A) :=
  match idx with
  | [] => Ok []
  | i :: idx' =>
      v <- getitem l i ;;
      vs <- getitems l idx' ;;
      Ok (v :: vs)
  end.

(** [l[-k:]]: the slice that starts [k] entries before the end. *)
Definition slice_from_neg {A : Type} (l : list A) (k : Z) : list A :=
  let n := Z.of_nat (length l) in
  let start := (- k)%Z in
  let start' := if (start <? 0)%Z then Z.max 0 (start + n) else Z.min start n in
  skipn (Z.to_nat start') l.

(** An index of the source's configuration: one integer, or an array of
    integers that selects several entries. *)
Inductive index : Type :=
| Idx (i : Z)
| Idxs (l : list Z).

Definition getindex (state : list R) (ix : index) : outcome np.ndarray :=
  match ix with
  | Idx i => v <- getitem state i ;; Ok (np.Scalar v)
  | Idxs l => vs <- getitems state l ;; Ok (np.Array vs)
  end.

(** ** The reward classes *)

Module OutOfBoundsActionCost.

Record t : Type := {
  lower_bound : np.ndarray;
  upper_bound : np.ndarray;
  reward_scale : R;
  const_cost : R;
  func : np.ndarray -> np.ndarray
}.

Definition init (lower_bound upper_bound : np.ndarray)
    (reward_scale const_cost : option R) (func_type : option string)
  : outcome t :=
  let reward_scale := kwarg 1 reward_scale in
  let const_cost := kwarg 0 const_cost in
  let func_type := kwarg "abs"%string func_type in
  if String.eqb func_type "abs" then
    Ok {| lower_bound := lower_bound; upper_bound := upper_bound;
          reward_scale := reward_scale; const_cost := const_cost;
          func := np.abs |}
  else if String.eqb func_type "squared" then
    Ok {| lower_bound := lower_bound; upper_bound := upper_bound;
          reward_scale := reward_scale; const_cost := const_cost;
          func := np.square |}
  else Raise (Exception (func_type ++ " is not a valid function type!")%string).

Definition call (self : t) (state action next_state : list R)
    (absorbing : bool) : outcome R :=
  d_lo <- np.subtract self.(lower_bound) (np.Array action) ;;
  c_lo <- np.add d_lo (np.Scalar self.(const_cost)) ;;
  m_lo <- np.less (np.Array action) self.(lower_bound) ;;
  lower_cost <- np.multiply c_lo m_lo ;;
  d_up <- np.subtract (np.Array action) self.(upper_bound) ;;
  c_up <- np.add d_up (np.Scalar self.(const_cost)) ;;
  m_up <- np.greater (np.Array action) self.(upper_bound) ;;
  upper_cost <- np.multiply c_up m_up ;;
  cost <- np.add lower_cost upper_cost ;;
  Ok (-1 * self.(reward_scale) * np.sum (self.(func) cost)).

End OutOfBoundsActionCost.

Module RewardInterface.

(** The base class: [__call__] is abstract and [reset_state] does
    nothing.  No class below overrides [reset_state]. *)
Definition call {Self : Type} (self : Self) (state action next_state : list R)
    (absorbing : bool) : outcome R :=
  Raise NotImplementedError.

Definition reset_state {Self : Type} (self : Self) : Self := self.

End RewardInterface.

Module NoReward.

Definition call (state action next_state : list R) (absorbing : bool)
  : outcome R :=
  Ok 0.

End NoReward.

Module PosReward.

Record t : Type := { pos_idx : index }.

Definition init (pos_idx : index) : t := {| pos_idx := pos_idx |}.

Definition call (self : t) (state action next_state : list R)
    (absorbing : bool) : outcome np.ndarray :=
  pos <- getindex state self.(pos_idx) ;;
  Ok pos.

End PosReward.

Module CustomReward.

Record t : Type := {
  reward_callback : option (list R -> list R -> list R -> R)
}.

Definition init (reward_callback : option (list R -> list R -> list R -> R))
  : t :=
  {| reward_callback := reward_callback |}.

Definition call (self : t) (state action next_state : list R)
    (absorbing : bool) : outcome R :=
  match self.(reward_callback) with
  | Some callback => Ok (callback state action next_state)
  | None => Ok 0
  end.

End CustomReward.

Module TargetVelocityReward.

Record t : Type := { target_vel : R; x_vel_idx : Z }.

Definition init (target_velocity : R) (x_vel_idx : Z) : t :=
  {| target_vel := target_velocity; x_vel_idx := x_vel_idx |}.

Definition call (self : t) (state action next_state : list R)
    (absorbing : bool) : outcome R :=
  x_vel <- getitem state self.(x_vel_idx) ;;
  Ok (exp (- Rsqr (x_vel - self.(target_vel)))).

End TargetVelocityReward.

Module MultiTargetVelocityReward.

Record t : Type := {
  target_vel : R;
  env_id_len : Z;
  scalings : list R;
  x_vel_idx : Z
}.

Definition init (target_velocity : R) (x_vel_idx env_id_len : Z)
    (scalings : list R) : t :=
  {| target_vel := target_velocity; env_id_len := env_id_len;
     scalings := scalings; x_vel_idx := x_vel_idx |}.

(** "convert binary array to index": the array of bytes
    [np.packbits(env_id.astype(int), bitorder='big') >> (8 - env_id.shape[0])]. *)
Definition env_index (env_id : list R) : list Z :=
  np.right_shift (np.packbits (map np.astype_int env_id))
                 (8 - Z.of_nat (length env_id)).

Definition call (self : t) (state action next_state : list R)
    (absorbing : bool) : outcome R :=
  x_vel <- getitem state self.(x_vel_idx) ;;
  let env_id := slice_from_neg state self.(env_id_len) in
  let ind := env_index env_id in
  ind <- getitem ind 0 ;;
  scaling <- getitem self.(scalings) ind ;;
  let target_vel := self.(target_vel) * scaling in
  Ok (exp (- Rsqr (x_vel - target_vel))).

End MultiTargetVelocityReward.

Module VelocityVectorReward.

Record t : Type := {
  x_vel_idx : Z;
  y_vel_idx : Z;
  rot_mat_idx : list Z;
  goal_vel_idx : Z
}.

Definition init (x_vel_idx y_vel_idx : Z) (rot_mat_idx : list Z)
    (goal_vel_idx : Z) : t :=
  {| x_vel_idx := x_vel_idx; y_vel_idx := y_vel_idx;
     rot_mat_idx := rot_mat_idx; goal_vel_idx := goal_vel_idx |}.

(** [a.reshape((3, 3))] of a 1-d array, row by row. *)
Definition reshape_3_3 (a : list R) : outcome (list (list R)) :=
  match a with
  | [a00; a01; a02; a10; a11; a12; a20; a21; a22] =>
      Ok [[a00; a01; a02]; [a10; a11; a12]; [a20; a21; a22]]
  | _ => Raise ValueError
  end.

Section WithMath.

(** [loco_mujoco.utils.math.mat2angle_xy], which is not part of this
    file of the repository: any function from matrices to angles. *)
Variable mat2angle_xy : list (list R) -> R.

Definition call (self : t) (state action next_state : list R)
    (absorbing : bool) : outcome R :=
  v_x <- getitem state self.(x_vel_idx) ;;
  v_y <- getitem state self.(y_vel_idx) ;;
  let curr_velocity_xy := [v_x; v_y] in
  block <- getitems state self.(rot_mat_idx) ;;
  rot_mat <- reshape_3_3 block ;;
  let angle := mat2angle_xy rot_mat in
  let angle := angle - PI / 2 in
  let norm_x := cos angle in
  let norm_y := sin angle in
  goal <- getitem state self.(goal_vel_idx) ;;
  let des_vel := map (Rmult goal) [norm_x; norm_y] in
  Ok (exp (- 5 * np.linalg_norm (np.zip_with Rminus curr_velocity_xy des_vel))).

End WithMath.

End VelocityVectorReward.

Module ActionCost.

Record t : Type := {
  action_mean : np.ndarray;
  reward_scale : R;
  func : np.ndarray -> np.ndarray
}.

Definition init (action_mean : np.ndarray) (reward_scale : option R)
    (func_type : option string) : outcome t :=
  let reward_scale := kwarg 1 reward_scale in
  let func_type := kwarg "abs"%string func_type in
  if String.eqb func_type "abs" then
    Ok {| action_mean := action_mean; reward_scale := reward_scale;
          func := np.abs |}
  else if String.eqb func_type "squared" then
    Ok {| action_mean := action_mean; reward_scale := reward_scale;
          func := np.square |}
  else Raise (Exception (func_type ++ " is not a valid function type!")%string).

Definition call (self : t) (state action next_state : list R)
    (absorbing : bool) : outcome R :=
  diff <- np.subtract (np.Array action) self.(action_mean) ;;
  Ok (-1 * self.(reward_scale) * np.sum (self.(func) diff)).

End ActionCost.

Module InBoundsBonus.

Record t : Type := {
  lower_bound : np.ndarray;
  upper_bound : np.ndarray;
  reward_scale : R;
  bonus_val : R
}.

Definition init (lower_bound upper_bound : np.ndarray)
    (reward_scale bonus_val : option R) : t :=
  {| lower_bound := lower_bound; upper_bound := upper_bound;
     reward_scale := kwarg 1 reward_scale; bonus_val := kwarg 1 bonus_val |}.

Definition call (self : t) (state action next_state : list R)
    (absorbing : bool) : outcome R :=
  below <- np.greater self.(upper_bound) (np.Array action) ;;
  above <- np.greater (np.Array action) self.(lower_bound) ;;
  inside <- np.multiply below above ;;
  bonus <- np.multiply (np.Scalar self.(bonus_val)) inside ;;
  Ok (self.(reward_scale) * np.sum bonus).

End InBoundsBonus.

(** The collaborators of [ModulationDifferencePenalty], which live outside
    this file of the repository: each is the method the class calls. *)
Record CyclePercentagePredictor : Type := {
  predict_cycle_percentage : list R -> R
}.

Record ActionSpaceModulator : Type := {
  modulate_action : list R -> list R -> list R
}.

Module ModulationDifferencePenalty.

Record t : Type := {
  cycle_percentage_predictors : list CyclePercentagePredictor;
  action_space_modulator : ActionSpaceModulator;
  cycle_progress : list R;
  reward_scale : R;
  func : np.ndarray -> np.ndarray
}.

Definition init (action_space_modulator : ActionSpaceModulator)
    (cycle_percentage_predictors : list CyclePercentagePredictor)
    (reward_scale : option R) (func_type : option string) : outcome t :=
  let cycle_progress := np.zeros (length cycle_percentage_predictors) in
  let reward_scale := kwarg 1 reward_scale in
  let func_type := kwarg "abs"%string func_type in
  if String.eqb func_type "abs" then
    Ok {| cycle_percentage_predictors := cycle_percentage_predictors;
          action_space_modulator := action_space_modulator;
          cycle_progress := cycle_progress;
          reward_scale := reward_scale; func := np.abs |}
  else if String.eqb func_type "squared" then
    Ok {| cycle_percentage_predictors := cycle_percentage_predictors;
          action_space_modulator := action_space_modulator;
          cycle_progress := cycle_progress;
          reward_scale := reward_scale; func := np.square |}
  else Raise (Exception (func_type ++ " is not a valid function type!")%string).

Definition set_cycle_progress (self : t) (v : list R) : t :=
  {| cycle_percentage_predictors := self.(cycle_percentage_predictors);
     action_space_modulator := self.(action_space_modulator);
     cycle_progress := v;
     reward_scale := self.(reward_scale); func := self.(func) |}.

(** [__call__] assigns [self.cycle_progress] first: the object it returns
    carries the new value also when the subtraction raises. *)
Definition call (self : t) (state action next_state : list R)
    (absorbing : bool) : outcome R * t :=
  let self :=
    set_cycle_progress self
      (map (fun channel => channel.(predict_cycle_percentage) state)
           self.(cycle_percentage_predictors)) in
  let modulated_action :=
    self.(action_space_modulator).(modulate_action) action self.(cycle_progress) in
  (modulated_action_diff <-
     np.subtract (np.Array action) (np.Array modulated_action) ;;
   Ok (-1 * self.(reward_scale) * np.sum (self.(func) modulated_action_diff)),
   self).

End ModulationDifferencePenalty.

(** ** The built-in variants behind the common interface *)

Inductive reward : Type :=
| IsNoReward
| IsPosReward (self : PosReward.t)
| IsCustomReward (self : CustomReward.t)
| IsTargetVelocityReward (self : TargetVelocityReward.t)
| IsMultiTargetVelocityReward (self : MultiTargetVelocityReward.t)
| IsVelocityVectorReward (self : VelocityVectorReward.t)
| IsOutOfBoundsActionCost (self : OutOfBoundsActionCost.t)
| IsActionCost (self : ActionCost.t)
| IsInBoundsBonus (self : InBoundsBonus.t)
| IsModulationDifferencePenalty (self : ModulationDifferencePenalty.t).

Definition scalar (r : outcome R) : outcome np.ndarray :=
  x <- r ;; Ok (np.Scalar x).

Section Dispatch.

Variable mat2angle_xy : list (list R) -> R.

(** [r(state, action, next_state, absorbing)]: the value returned or the
    exception raised, and the object after the call. *)
Definition call (r : reward) (state action next_state : list R)
    (absorbing : bool) : outcome np.ndarray * reward :=
  match r with
  | IsNoReward =>
      (scalar (NoReward.call state action next_state absorbing), r)
  | IsPosReward self =>
      (PosReward.call self state action next_state absorbing, r)
  | IsCustomReward self =>
      (scalar (CustomReward.call self state action next_state absorbing), r)
  | IsTargetVelocityReward self =>
      (scalar (TargetVelocityReward.call self state action next_state absorbing), r)
  | IsMultiTargetVelocityReward self =>
      (scalar (MultiTargetVelocityReward.call self state action next_state absorbing), r)
  | IsVelocityVectorReward self =>
      (scalar (VelocityVectorReward.call mat2angle_xy self state action
                 next_state absorbing), r)
  | IsOutOfBoundsActionCost self =>
      (scalar (OutOfBoundsActionCost.call self state action next_state absorbing), r)
  | IsActionCost self =>
      (scalar (ActionCost.call self state action next_state absorbing), r)
  | IsInBoundsBonus self =>
      (scalar (InBoundsBonus.call self state action next_state absorbing), r)
  | IsModulationDifferencePenalty self =>
      let (res, self') :=
        ModulationDifferencePenalty.call self state action next_state absorbing in
      (scalar res, IsModulationDifferencePenalty self')
  end.

End Dispatch.

(** [r.reset_state()]: every class inherits the method of the base class. *)
Definition reset_state (r : reward) : reward :=
  match r with
  | IsNoReward => IsNoReward
  | IsPosReward self => IsPosReward (RewardInterface.reset_state self)
  | IsCustomReward self => IsCustomReward (RewardInterface.reset_state self)
  | IsTargetVelocityReward self =>
      IsTargetVelocityReward (RewardInterface.reset_state self)
  | IsMultiTargetVelocityReward self =>
      IsMultiTargetVelocityReward (RewardInterface.reset_state self)
  | IsVelocityVectorReward self =>
      IsVelocityVectorReward (RewardInterface.reset_state self)
  | IsOutOfBoundsActionCost self =>
      IsOutOfBoundsActionCost (RewardInterface.reset_state self)
  | IsActionCost self => IsActionCost (RewardInterface.reset_state self)
  | IsInBoundsBonus self => IsInBoundsBonus (RewardInterface.reset_state self)
  | IsModulationDifferencePenalty self =>
      IsModulationDifferencePenalty (RewardInterface.reset_state self)
  end.

(** ** The same classes on binary64 numbers *)

Module Binary64.

(** A float or a 1-d array of floats, as [np.ndarray]; [True] and [False]
    enter a product as [1.0] and [0.0]. *)
Inductive ndarray : Type :=
| Scalar (x : float)
| Array (l : list float).

Fixpoint zip_with (f : float -> float -> float) (l1 l2 : list float)
  : list float :=
  match l1, l2 with
  | a :: l1', b :: l2' => f a b :: zip_with f l1' l2'
  | _, _ => []
  end.

Definition broadcast2 (f : float -> float -> float) (x y : ndarray)
  : outcome ndarray :=
  match x, y with
  | Scalar a, Scalar b => Ok (Scalar (f a b))
  | Scalar a, Array l => Ok (Array (map (f a) l))
  | Array l, Scalar b => Ok (Array (map (fun u => f u b) l))
  | Array l1, Array l2 =>
      if Nat.eqb (length l1) (length l2) then Ok (Array (zip_with f l1 l2))
      else match l1, l2 with
           | [a], _ => Ok (Array (map (f a) l2))
           | _, [b] => Ok (Array (map (fun u => f u b) l1))
           | _, _ => Raise ValueError
           end
  end.

Definition map1 (f : float -> float) (x : ndarray) : ndarray :=
  match x with
  | Scalar a => Scalar (f a)
  | Array l => Array (map f l)
  end.

Definition of_bool (b : bool) : float := if b then 1%float else 0%float.

Definition add : ndarray -> ndarray -> outcome ndarray := broadcast2 PrimFloat.add.
Definition subtract : ndarray -> ndarray -> outcome ndarray := broadcast2 PrimFloat.sub.
Definition multiply : ndarray -> ndarray -> outcome ndarray := broadcast2 PrimFloat.mul.

Definition less : ndarray -> ndarray -> outcome ndarray :=
  broadcast2 (fun a b => of_bool (PrimFloat.ltb a b)).
Definition greater : ndarray -> ndarray -> outcome ndarray :=
  broadcast2 (fun a b => of_bool (PrimFloat.ltb b a)).

Definition abs : ndarray -> ndarray := map1 PrimFloat.abs.
Definition square : ndarray -> ndarray := map1 (fun x => PrimFloat.mul x x).

(** [np.sum] of an array of fewer than eight entries: the entries are
    added from left to right.  (The sign of a sum of negative zeros alone
    depends on the version of numpy; nothing below sums such an array.) *)
Definition sum_list (l : list float) : float :=
  match l with
  | [] => 0%float
  | x :: l' => fold_left PrimFloat.add l' x
  end.

Definition sum (x : ndarray) : float :=
  match x with
  | Scalar a => a
  | Array l => sum_list l
  end.

(** [np.exp] where IEEE 754 and C fix its result whatever the accuracy of
    the library: [exp(+-0) = 1], [exp(-inf) = +0], [exp(+inf) = +inf] and
    [exp(nan) = nan].  On the other numbers the result depends on the
    rounding of the library and is not given ([None]). *)
Definition exp (x : float) : option float :=
  match PrimFloat.classify x with
  | PZero | NZero => Some 1%float
  | NInf => Some 0%float
  | PInf => Some infinity
  | NaN => Some nan
  | _ => None
  end.

Module OutOfBoundsActionCost.

Record t : Type := {
  lower_bound : ndarray;
  upper_bound : ndarray;
  reward_scale : float;
  const_cost : float;
  func : ndarray -> ndarray
}.

Definition init (lower_bound upper_bound : ndarray)
    (reward_scale const_cost : option float) (func_type : option string)
  : outcome t :=
  let reward_scale := kwarg 1%float reward_scale in
  let const_cost := kwarg 0%float const_cost in
  let func_type := kwarg "abs"%string func_type in
  if String.eqb func_type "abs" then
    Ok {| lower_bound := lower_bound; upper_bound := upper_bound;
          reward_scale := reward_scale; const_cost := const_cost;
          func := abs |}
  else if String.eqb func_type "squared" then
    Ok {| lower_bound := lower_bound; upper_bound := upper_bound;
          reward_scale := reward_scale; const_cost := const_cost;
          func := square |}
  else Raise (Exception (func_type ++ " is not a valid function type!")%string).

Definition call (self : t) (state action next_state : list float)
    (absorbing : bool) : outcome float :=
  d_lo <- subtract self.(lower_bound) (Array action) ;;
  c_lo <- add d_lo (Scalar self.(const_cost)) ;;
  m_lo <- less (Array action) self.(lower_bound) ;;
  lower_cost <- multiply c_lo m_lo ;;
  d_up <- subtract (Array action) self.(upper_bound) ;;
  c_up <- add d_up (Scalar self.(const_cost)) ;;
  m_up <- greater (Array action) self.(upper_bound) ;;
  upper_cost <- multiply c_up m_up ;;
  cost <- add lower_cost upper_cost ;;
  Ok (PrimFloat.mul (PrimFloat.mul (-1)%float self.(reward_scale))
                    (sum (self.(func) cost))).

End OutOfBoundsActionCost.

Module TargetVelocityReward.

Record t : Type := { target_vel : float; x_vel_idx : Z }.

Definition init (target_velocity : float) (x_vel_idx : Z) : t :=
  {| target_vel := target_velocity; x_vel_idx := x_vel_idx |}.

Definition call (self : t) (state action next_state : list float)
    (absorbing : bool) : outcome (option float) :=
  x_vel <- getitem state self.(x_vel_idx) ;;
  let d := PrimFloat.sub x_vel self.(target_vel) in
  Ok (exp (PrimFloat.opp (PrimFloat.mul d d))).

End TargetVelocityReward.

End Binary64.

(** The largest magnitude of bounds, actions and constant costs for which
    no difference of two of them, plus a third, overflows in binary64. *)
Definition max_magnitude : R := IZR (2 ^ 1022).

Definition moderate (x : R) : Prop := Rabs x <= max_magnitude.

Definition moderate_component (c : R * R * R) : Prop :=
  let '(a, lo, hi) := c in moderate a /\ moderate lo /\ moderate hi.

(** ** Notions used to state the properties *)

(** A bound or reference vector is given per component of the action or as
    one scalar for all components. *)
Definition fits (n : nat) (b : np.ndarray) : Prop :=
  match b with
  | np.Scalar _ => True
  | np.Array l => length l = n
  end.

(** The value of [b] for each of [n] components. *)
Definition expand (n : nat) (b : np.ndarray) : list R :=
  match b with
  | np.Scalar x => repeat x n
  | np.Array l => l
  end.

(** The components of an action, each with its lower and its upper bound. *)
Definition bounded_components (action : list R) (lower upper : np.ndarray)
  : list (R * R * R) :=
  combine (combine action (expand (length action) lower))
          (expand (length action) upper).

(** The out-of-bounds cost of one component, in the words of the
    specification: [lowerBound - a + constCost] below the lower bound,
    [a - upperBound + constCost] above the upper bound, zero elsewhere. *)
Definition lower_cost (const_cost : R) (c : R * R * R) : R :=
  let '(a, lo, _) := c in if Rlt_dec a lo then lo - a + const_cost else 0.

Definition upper_cost (const_cost : R) (c : R * R * R) : R :=
  let '(a, _, hi) := c in if Rgt_dec a hi then a - hi + const_cost else 0.

Definition within_bounds (c : R * R * R) : Prop :=
  let '(a, lo, hi) := c in lo <= a <= hi.

Definition outside_bounds (c : R * R * R) : Prop :=
  let '(a, lo, hi) := c in a < lo \/ hi < a.

(** The bonus of one component: [bonus_val] strictly between the bounds. *)
Definition awarded (bonus_val : R) (c : R * R * R) : R :=
  let '(a, lo, hi) := c in
  if Rlt_dec lo a then (if Rlt_dec a hi then bonus_val else 0) else 0.

(** A bit vector read as a big-endian integer, most significant bit first. *)
Definition big_endian (bits : list Z) : Z :=
  fold_left (fun acc b => (2 * acc + b)%Z) bits 0%Z.

Definition is_bit (b : Z) : Prop := b = 0%Z \/ b = 1%Z.

(** An integer index that Python accepts for a sequence of [n] entries. *)
Definition in_range (n : nat) (i : Z) : Prop :=
  (- Z.of_nat n <= i < Z.of_nat n)%Z.

(** The bit that the decoding of the environment id reads off an entry:
    set when the entry does not truncate to zero. *)
Definition bit_of (x : R) : Z := if Rle_dec 1 (Rabs x) then 1%Z else 0%Z.

(** [a] moved into the interval from [lo] to [hi]. *)
Definition clip (lo hi a : R) : R := Rmax lo (Rmin a hi).

Definition ordered_bounds (c : R * R * R) : Prop :=
  let '(_, lo, hi) := c in lo <= hi.

Definition strictly_inside (c : R * R * R) : Prop :=
  let '(a, lo, hi) := c in lo < a < hi.

Definition strictly_inside_dec (c : R * R * R) : bool :=
  let '(a, lo, hi) := c in
  if Rlt_dec lo a then (if Rlt_dec a hi then true else false) else false.

(** How far a component lies from the interval of its bounds. *)
Definition clip_distance (c : R * R * R) : R :=
  let '(a, lo, hi) := c in Rabs (a - clip lo hi a).

Definition empty_interval (c : R * R * R) : Prop :=
  let '(_, lo, hi) := c in hi <= lo.

(** Two arrays whose lengths numpy cannot broadcast. *)
Definition shape_mismatch (n m : nat) : Prop :=
  n <> m /\ n <> 1%nat /\ m <> 1%nat.

(** ** Lemmas on the numpy fragment *)

Example packbits_two_bits : np.packbits [1; 0]%Z = [128%Z].
Proof. reflexivity. Qed.

Example packbits_nonzero_is_set : np.packbits [2; 0; -3]%Z = [160%Z].
Proof. reflexivity. Qed.

Example packbits_nine_bits :
  np.packbits [1; 1; 1; 1; 1; 1; 1; 1; 1]%Z = [255%Z; 128%Z].
Proof. reflexivity. Qed.

Example getitem_from_end : getitem [10; 20; 30]%Z (-1) = Ok 30%Z.
Proof. reflexivity. Qed.

Example getitem_out_of_range : getitem [10; 20; 30]%Z 3 = Raise IndexError.
Proof. reflexivity. Qed.

Example slice_last_two : slice_from_neg [10; 20; 30]%Z 2 = [20; 30]%Z.
Proof. reflexivity. Qed.

Example slice_longer_than_list :
  slice_from_neg [10; 20; 30]%Z 5 = [10; 20; 30]%Z.
Proof. reflexivity. Qed.

Example slice_minus_zero : slice_from_neg [10; 20; 30]%Z 0 = [10; 20; 30]%Z.
Proof. reflexivity. Qed.

Lemma bind_Ok {A B : Type} (a : A) (k : A -> outcome B) :
  bind (Ok a) k = k a.
Proof. reflexivity. Qed.

Lemma zip_with_length (f : R -> R -> R) :
  forall l1 l2, length l1 = length l2 -> length (np.zip_with f l1 l2) = length l1.
Proof.
  induction l1 as [|a l1 IH]; intros [|b l2] H; simpl in *; try discriminate; auto.
Qed.

Lemma zip_with_repeat_r (f : R -> R -> R) (c : R) :
  forall l, np.zip_with f l (repeat c (length l)) = map (fun u => f u c) l.
Proof. induction l as [|a l IH]; simpl; [reflexivity | now rewrite IH]. Qed.

Lemma zip_with_repeat_l (f : R -> R -> R) (c : R) :
  forall l, np.zip_with f (repeat c (length l)) l = map (f c) l.
Proof. induction l as [|a l IH]; simpl; [reflexivity | now rewrite IH]. Qed.

Lemma expand_length (n : nat) (b : np.ndarray) :
  fits n b -> length (expand n b) = n.
Proof. destruct b; simpl; [intros _; apply repeat_length | auto]. Qed.

Lemma broadcast2_arrays (f : R -> R -> R) (l1 l2 : list R) :
  length l1 = length l2 ->
  np.broadcast2 f (np.Array l1) (np.Array l2) = Ok (np.Array (np.zip_with f l1 l2)).
Proof.
  intros H. unfold np.broadcast2. now rewrite H, Nat.eqb_refl.
Qed.

Lemma broadcast2_scalar_r (f : R -> R -> R) (l : list R) (c : R) :
  np.broadcast2 f (np.Array l) (np.Scalar c)
  = Ok (np.Array (map (fun u => f u c) l)).
Proof. reflexivity. Qed.

Lemma broadcast2_scalar_l (f : R -> R -> R) (l : list R) (c : R) :
  np.broadcast2 f (np.Scalar c) (np.Array l) = Ok (np.Array (map (f c) l)).
Proof. reflexivity. Qed.

Lemma broadcast2_fits_r (f : R -> R -> R) (l : list R) (b : np.ndarray) :
  fits (length l) b ->
  np.broadcast2 f (np.Array l) b
  = Ok (np.Array (np.zip_with f l (expand (length l) b))).
Proof.
  destruct b as [c|l2]; simpl; intros H.
  - now rewrite zip_with_repeat_r.
  - now rewrite H, Nat.eqb_refl.
Qed.

Lemma broadcast2_fits_l (f : R -> R -> R) (l : list R) (b : np.ndarray) :
  fits (length l) b ->
  np.broadcast2 f b (np.Array l)
  = Ok (np.Array (np.zip_with f (expand (length l) b) l)).
Proof.
  destruct b as [c|l2]; simpl; intros H.
  - now rewrite zip_with_repeat_l.
  - now rewrite H, Nat.eqb_refl.
Qed.

Lemma sum_list_cons (x : R) (l : list R) :
  np.sum_list (x :: l) = x + np.sum_list l.
Proof. reflexivity. Qed.

Lemma sum_list_nonneg (l : list R) :
  Forall (fun x => 0 <= x) l -> 0 <= np.sum_list l.
Proof.
  induction 1 as [|x l Hx _ IH]; [cbv; lra | rewrite sum_list_cons; lra].
Qed.

Lemma sum_list_pos (l : list R) :
  Forall (fun x => 0 <= x) l -> Exists (fun x => 0 < x) l -> 0 < np.sum_list l.
Proof.
  intros Hall Hex. induction Hex as [x l Hx | x l _ IH].
  - inversion Hall as [|? ? _ Hl]; subst. apply sum_list_nonneg in Hl.
    rewrite sum_list_cons. lra.
  - inversion Hall as [|? ? Hx Hl]; subst. specialize (IH Hl).
    rewrite sum_list_cons. lra.
Qed.

Lemma sum_list_zero (l : list R) :
  Forall (fun x => x = 0) l -> np.sum_list l = 0.
Proof.
  induction 1 as [|x l Hx _ IH]; [reflexivity | rewrite sum_list_cons; lra].
Qed.

(** Runs a chain of elementwise operations whose operands are arrays of one
    length, or an array and a scalar. *)
Ltac np_lengths :=
  repeat first [rewrite zip_with_length | rewrite length_map]; congruence.

Ltac np_run :=
  repeat first
    [ rewrite bind_Ok
    | rewrite broadcast2_scalar_r
    | rewrite broadcast2_scalar_l
    | rewrite broadcast2_arrays by np_lengths ].

(** ** OutOfBoundsActionCost *)

Lemma out_of_bounds_costs (c : R) :
  forall a L U, length L = length a -> length U = length a ->
    np.zip_with Rplus
      (np.zip_with Rmult
         (map (fun u => u + c) (np.zip_with Rminus L a))
         (np.zip_with (fun x y => if Rlt_dec x y then 1 else 0) a L))
      (np.zip_with Rmult
         (map (fun u => u + c) (np.zip_with Rminus a U))
         (np.zip_with (fun x y => if Rgt_dec x y then 1 else 0) a U))
    = map (fun r => lower_cost c r + upper_cost c r) (combine (combine a L) U).
Proof.
  induction a as [|x a IH]; intros [|lo L] [|hi U] HL HU;
    simpl in *; try discriminate; [reflexivity|].
  f_equal; [| apply IH; lia].
  unfold lower_cost, upper_cost.
  destruct (Rlt_dec x lo), (Rgt_dec x hi); lra.
Qed.

Lemma OutOfBoundsActionCost_call_eq (self : OutOfBoundsActionCost.t)
    (state action next_state : list R) (absorbing : bool) :
  fits (length action) self.(OutOfBoundsActionCost.lower_bound) ->
  fits (length action) self.(OutOfBoundsActionCost.upper_bound) ->
  OutOfBoundsActionCost.call self state action next_state absorbing
  = Ok (-1 * self.(OutOfBoundsActionCost.reward_scale)
        * np.sum (self.(OutOfBoundsActionCost.func)
            (np.Array (map (fun r => lower_cost self.(OutOfBoundsActionCost.const_cost) r
                                     + upper_cost self.(OutOfBoundsActionCost.const_cost) r)
                           (bounded_components action
                              self.(OutOfBoundsActionCost.lower_bound)
                              self.(OutOfBoundsActionCost.upper_bound)))))).
Proof.
  intros HL HU. unfold OutOfBoundsActionCost.call, bounded_components.
  unfold np.subtract, np.add, np.multiply, np.less, np.greater.
  pose proof (expand_length _ _ HL) as EL. pose proof (expand_length _ _ HU) as EU.
  rewrite (broadcast2_fits_l _ _ _ HL), (broadcast2_fits_r _ _ _ HL).
  rewrite (broadcast2_fits_r _ _ _ HU), (broadcast2_fits_r _ _ _ HU).
  np_run.
  now rewrite out_of_bounds_costs.
Qed.

Lemma OutOfBoundsActionCost_init_inv lb ub scale const ft self :
  OutOfBoundsActionCost.init lb ub scale const ft = Ok self ->
  self.(OutOfBoundsActionCost.lower_bound) = lb
  /\ self.(OutOfBoundsActionCost.upper_bound) = ub
  /\ self.(OutOfBoundsActionCost.reward_scale) = kwarg 1 scale
  /\ self.(OutOfBoundsActionCost.const_cost) = kwarg 0 const
  /\ (self.(OutOfBoundsActionCost.func) = np.abs
      \/ self.(OutOfBoundsActionCost.func) = np.square).
Proof.
  unfold OutOfBoundsActionCost.init.
  destruct (String.eqb _ "abs"); [|destruct (String.eqb _ "squared")];
    intros H; inversion H; subst; simpl; auto 6.
Qed.

Lemma penalty_sum (func : np.ndarray -> np.ndarray) :
  func = np.abs \/ func = np.square ->
  exists g : R -> R,
    (forall l, np.sum (func (np.Array l)) = np.sum_list (map g l))
    /\ g 0 = 0 /\ (forall x, 0 <= g x) /\ (forall x, x <> 0 -> 0 < g x).
Proof.
  intros [-> | ->].
  - exists Rabs. repeat split.
    + apply Rabs_R0.
    + apply Rabs_pos.
    + apply Rabs_pos_lt.
  - exists Rsqr. repeat split.
    + apply Rsqr_0.
    + apply Rle_0_sqr.
    + apply Rsqr_pos_lt.
Qed.

Lemma within_bounds_no_cost (const : R) (c : R * R * R) :
  within_bounds c -> lower_cost const c + upper_cost const c = 0.
Proof.
  destruct c as [[a lo] hi]. unfold within_bounds, lower_cost, upper_cost.
  intros [H1 H2]. destruct (Rlt_dec a lo), (Rgt_dec a hi); lra.
Qed.

Lemma zero_const_cost_nonneg (c : R * R * R) :
  0 <= lower_cost 0 c + upper_cost 0 c.
Proof.
  destruct c as [[a lo] hi]. unfold lower_cost, upper_cost.
  destruct (Rlt_dec a lo), (Rgt_dec a hi); lra.
Qed.

Lemma outside_bounds_cost (c : R * R * R) :
  outside_bounds c -> 0 < lower_cost 0 c + upper_cost 0 c.
Proof.
  destruct c as [[a lo] hi]. unfold outside_bounds, lower_cost, upper_cost.
  intros H. destruct (Rlt_dec a lo), (Rgt_dec a hi); lra.
Qed.

Lemma moderate_small (x : R) : Rabs x <= 1000 -> moderate x.
Proof.
  intros H. unfold moderate, max_magnitude.
  apply Rle_trans with (IZR 1000); [exact H|].
  apply IZR_le. vm_compute. discriminate.
Qed.

(** C1.  With bounds given per component or as scalars, and bounds, action
    and constant cost of magnitude at most [2 ^ 1022] (no difference
    overflows), [OutOfBoundsActionCost.__call__] returns
    [-scale * sum(penaltyFunc(lowerCost + upperCost))], where [lowerCost] is
    [lowerBound - a + constCost] on the components below the lower bound and
    zero elsewhere, and [upperCost] symmetrically.  With the default
    [const_cost = 0] and [reward_scale = 1] the result is zero when every
    component lies in the closed interval of its bounds, it is never
    positive, and with the absolute value as penalty it is strictly negative
    when some component lies strictly outside. *)
Theorem OutOfBoundsActionCost_evaluate :
  forall (lb ub : np.ndarray) (scale const : option R) (ft : option string)
         (self : OutOfBoundsActionCost.t)
         (state action next_state : list R) (absorbing : bool),
    OutOfBoundsActionCost.init lb ub scale const ft = Ok self ->
    fits (length action) lb ->
    fits (length action) ub ->
    let comps := bounded_components action lb ub in
    Forall moderate_component comps ->
    moderate (kwarg 0 const) ->
    let result := OutOfBoundsActionCost.call self state action next_state absorbing in
    result
    = Ok (- kwarg 1 scale
          * np.sum (self.(OutOfBoundsActionCost.func)
              (np.Array (map (fun c => lower_cost (kwarg 0 const) c
                                       + upper_cost (kwarg 0 const) c) comps))))
    /\ (kwarg 1 scale = 1 -> kwarg 0 const = 0 ->
        (Forall within_bounds comps -> result = Ok 0)
        /\ (exists r, result = Ok r /\ r <= 0)
        /\ (self.(OutOfBoundsActionCost.func) = np.abs ->
            Exists outside_bounds comps ->
            exists r, result = Ok r /\ r < 0)).
Proof.
  intros lb ub scale const ft self state action next_state absorbing Hinit HL HU
    comps _ _ result.
  destruct (OutOfBoundsActionCost_init_inv _ _ _ _ _ _ Hinit)
    as (Elb & Eub & Esc & Ec & Hf).
  subst result comps.
  rewrite OutOfBoundsActionCost_call_eq by (rewrite ?Elb, ?Eub; assumption).
  rewrite Elb, Eub, Esc, Ec.
  destruct (penalty_sum _ Hf) as (g & Hsum & g0 & gnn & gpos).
  rewrite Hsum. split; [f_equal; lra|].
  intros -> ->.
  assert (0 <= np.sum_list
                 (map g (map (fun c => lower_cost 0 c + upper_cost 0 c)
                             (bounded_components action lb ub)))) as Hnn.
  { apply sum_list_nonneg. rewrite !Forall_map. apply Forall_forall.
    intros c _. apply gnn. }
  split; [|split].
  - intros Hin. f_equal.
    rewrite sum_list_zero; [lra|].
    rewrite !Forall_map. eapply Forall_impl; [|exact Hin].
    intros c Hc. cbv beta. now rewrite within_bounds_no_cost.
  - eexists; split; [reflexivity | lra].
  - intros _ Hout. eexists; split; [reflexivity|].
    assert (0 < np.sum_list
                  (map g (map (fun c => lower_cost 0 c + upper_cost 0 c)
                              (bounded_components action lb ub)))) as Hpos.
    { apply sum_list_pos.
      - rewrite !Forall_map. apply Forall_forall. intros c _. apply gnn.
      - rewrite !Exists_map. eapply Exists_impl; [|exact Hout].
        intros c Hc. apply gpos. apply outside_bounds_cost in Hc. lra. }
    lra.
Qed.

(** Scalar bounds [0] and [1], the defaults, and the action [[1/2; 2]]. *)
Lemma OutOfBoundsActionCost_evaluate_witness :
  exists r,
    OutOfBoundsActionCost.call
      {| OutOfBoundsActionCost.lower_bound := np.Scalar 0;
         OutOfBoundsActionCost.upper_bound := np.Scalar 1;
         OutOfBoundsActionCost.reward_scale := 1;
         OutOfBoundsActionCost.const_cost := 0;
         OutOfBoundsActionCost.func := np.abs |}
      [] [1 / 2; 2] [] false = Ok r /\ r < 0.
Proof.
  refine (proj2 (proj2 (proj2 (OutOfBoundsActionCost_evaluate
            (np.Scalar 0) (np.Scalar 1) None None None _ [] [1 / 2; 2] [] false
            eq_refl I I _ _) eq_refl eq_refl)) eq_refl _).
  - repeat apply Forall_cons; try apply Forall_nil;
      repeat split; apply moderate_small;
      unfold Rabs; destruct (Rcase_abs _); lra.
  - apply moderate_small. simpl. unfold Rabs; destruct (Rcase_abs _); lra.
  - apply Exists_cons_tl, Exists_cons_hd. right. lra.
Defined.

(** In binary64 the sign and the zero of the result are not those of exact
    arithmetic.  With the square as penalty, bounds [-1] and [0] and the
    action [[2 ^ -664]], which lies strictly above the upper bound, the
    square of the violation underflows and the call returns [-0.0], which
    is not below zero.  With the bounds [-2 ^ 1023] and [2 ^ 1023] and the
    action [[2 ^ 1023]], which lies within the bounds, the difference
    [lower_bound - action] overflows to [-inf], its product with the mask
    [0.0] is [nan], and the call returns [nan], which is not zero. *)
Lemma OutOfBoundsActionCost_evaluate_counterexample :
  (Binary64.OutOfBoundsActionCost.init
     (Binary64.Scalar (-1)) (Binary64.Scalar 0) None None (Some "squared"%string)
   = Ok {| Binary64.OutOfBoundsActionCost.lower_bound := Binary64.Scalar (-1);
           Binary64.OutOfBoundsActionCost.upper_bound := Binary64.Scalar 0;
           Binary64.OutOfBoundsActionCost.reward_scale := 1;
           Binary64.OutOfBoundsActionCost.const_cost := 0;
           Binary64.OutOfBoundsActionCost.func := Binary64.square |}
   /\ PrimFloat.ltb 0 0x1p-664 = true
   /\ Binary64.OutOfBoundsActionCost.call
        {| Binary64.OutOfBoundsActionCost.lower_bound := Binary64.Scalar (-1);
           Binary64.OutOfBoundsActionCost.upper_bound := Binary64.Scalar 0;
           Binary64.OutOfBoundsActionCost.reward_scale := 1;
           Binary64.OutOfBoundsActionCost.const_cost := 0;
           Binary64.OutOfBoundsActionCost.func := Binary64.square |}
        [] [0x1p-664] [] false = Ok (-0)
   /\ PrimFloat.ltb (-0) 0 = false)%float
  /\ (PrimFloat.leb (-0x1p1023) 0x1p1023 = true
      /\ PrimFloat.leb 0x1p1023 0x1p1023 = true
      /\ Binary64.OutOfBoundsActionCost.call
           {| Binary64.OutOfBoundsActionCost.lower_bound :=
                Binary64.Scalar (-0x1p1023);
              Binary64.OutOfBoundsActionCost.upper_bound :=
                Binary64.Scalar 0x1p1023;
              Binary64.OutOfBoundsActionCost.reward_scale := 1;
              Binary64.OutOfBoundsActionCost.const_cost := 0;
              Binary64.OutOfBoundsActionCost.func := Binary64.abs |}
           [] [0x1p1023] [] false = Ok nan
      /\ PrimFloat.eqb nan 0 = false)%float.
Proof. vm_compute. repeat split. Qed.

(** ** ActionCost *)

Lemma zip_with_combine (f : R -> R -> R) :
  forall l1 l2,
    np.zip_with f l1 l2 = map (fun c => f (fst c) (snd c)) (combine l1 l2).
Proof.
  induction l1 as [|a l1 IH]; intros [|b l2]; simpl; try reflexivity.
  now rewrite IH.
Qed.

Ltac rabs := unfold Rabs; repeat destruct Rcase_abs; try lra.

(** C8.  With a reference action given per component or as a scalar,
    [ActionCost.__call__] returns [-scale * sum(penaltyFunc(action - mean))];
    with [action_mean = [0, 0]], [reward_scale = 1.0], [func_type = 'abs']
    and [action = [1, -1]] it returns [-2]. *)
Theorem ActionCost_evaluate :
  forall (self : ActionCost.t) (state action next_state : list R)
         (absorbing : bool),
    fits (length action) self.(ActionCost.action_mean) ->
    ActionCost.call self state action next_state absorbing
    = Ok (- self.(ActionCost.reward_scale)
          * np.sum (self.(ActionCost.func)
              (np.Array (map (fun c => fst c - snd c)
                 (combine action
                    (expand (length action) self.(ActionCost.action_mean)))))))
    /\ exists self0,
         ActionCost.init (np.Array [0; 0]) (Some 1) (Some "abs"%string) = Ok self0
         /\ ActionCost.call self0 state [1; -1] next_state absorbing = Ok (-2).
Proof.
  intros self state action next_state absorbing Hfit. split.
  - unfold ActionCost.call, np.subtract.
    rewrite (broadcast2_fits_r _ _ _ Hfit), bind_Ok, zip_with_combine.
    f_equal. lra.
  - eexists. split; [reflexivity|].
    unfold ActionCost.call, np.subtract. cbn. f_equal. rabs.
Qed.

Lemma ActionCost_evaluate_witness :
  ActionCost.call
    {| ActionCost.action_mean := np.Scalar 1; ActionCost.reward_scale := 2;
       ActionCost.func := np.square |} [] [3; 1] [] true
  = Ok (- 2 * np.sum (np.square (np.Array [3 - 1; 1 - 1]))).
Proof.
  exact (proj1 (ActionCost_evaluate
           {| ActionCost.action_mean := np.Scalar 1; ActionCost.reward_scale := 2;
              ActionCost.func := np.square |} [] [3; 1] [] true I)).
Defined.

(** ** InBoundsBonus *)

Lemma in_bounds_awards (bonus : R) :
  forall a L U, length L = length a -> length U = length a ->
    map (Rmult bonus)
      (np.zip_with Rmult
         (np.zip_with (fun x y => if Rgt_dec x y then 1 else 0) U a)
         (np.zip_with (fun x y => if Rgt_dec x y then 1 else 0) a L))
    = map (awarded bonus) (combine (combine a L) U).
Proof.
  induction a as [|x a IH]; intros [|lo L] [|hi U] HL HU;
    simpl in *; try discriminate; [reflexivity|].
  f_equal; [| apply IH; lia].
  destruct (Rgt_dec hi x), (Rgt_dec x lo), (Rlt_dec lo x), (Rlt_dec x hi); lra.
Qed.

(** C6.  With bounds given per component or as scalars,
    [InBoundsBonus.__call__] returns [scale] times the sum of the awarded
    bonuses, where a component is awarded [bonus_val] exactly when it lies
    strictly between its bounds (a component equal to a bound gets nothing);
    with bounds [(0, 1)], [bonus_val = 1.0], [reward_scale = 1.0] and
    [action = [0.5, 1.5]] it returns [1]. *)
Theorem InBoundsBonus_evaluate :
  forall (self : InBoundsBonus.t) (state action next_state : list R)
         (absorbing : bool),
    fits (length action) self.(InBoundsBonus.lower_bound) ->
    fits (length action) self.(InBoundsBonus.upper_bound) ->
    InBoundsBonus.call self state action next_state absorbing
    = Ok (self.(InBoundsBonus.reward_scale)
          * np.sum_list
              (map (awarded self.(InBoundsBonus.bonus_val))
                   (bounded_components action self.(InBoundsBonus.lower_bound)
                                       self.(InBoundsBonus.upper_bound))))
    /\ (forall bonus a lo hi,
          (lo < a < hi -> awarded bonus (a, lo, hi) = bonus)
          /\ (~ lo < a < hi -> awarded bonus (a, lo, hi) = 0)
          /\ (a = lo \/ a = hi -> awarded bonus (a, lo, hi) = 0))
    /\ InBoundsBonus.call
         (InBoundsBonus.init (np.Scalar 0) (np.Scalar 1) (Some 1) (Some 1))
         state [1 / 2; 3 / 2] next_state absorbing = Ok 1.
Proof.
  intros self state action next_state absorbing HL HU.
  assert (forall bonus a lo hi,
          (lo < a < hi -> awarded bonus (a, lo, hi) = bonus)
          /\ (~ lo < a < hi -> awarded bonus (a, lo, hi) = 0)
          /\ (a = lo \/ a = hi -> awarded bonus (a, lo, hi) = 0)) as Haward.
  { intros bonus a lo hi. unfold awarded.
    destruct (Rlt_dec lo a), (Rlt_dec a hi); repeat split; intros; lra. }
  assert (forall self state action next_state absorbing,
             fits (length action) self.(InBoundsBonus.lower_bound) ->
             fits (length action) self.(InBoundsBonus.upper_bound) ->
             InBoundsBonus.call self state action next_state absorbing
             = Ok (self.(InBoundsBonus.reward_scale)
                   * np.sum_list
                       (map (awarded self.(InBoundsBonus.bonus_val))
                          (bounded_components action self.(InBoundsBonus.lower_bound)
                             self.(InBoundsBonus.upper_bound))))) as Hcall.
  { clear. intros self state action next_state absorbing HL HU.
    unfold InBoundsBonus.call, bounded_components, np.multiply, np.greater.
    pose proof (expand_length _ _ HL) as EL.
    pose proof (expand_length _ _ HU) as EU.
    rewrite (broadcast2_fits_l _ _ _ HU), (broadcast2_fits_r _ _ _ HL).
    np_run. cbn [np.sum]. now rewrite in_bounds_awards. }
  split; [now apply Hcall|]. split; [exact Haward|].
  rewrite Hcall by exact I. cbn. f_equal.
  destruct (Rlt_dec 0 (1 / 2)), (Rlt_dec (1 / 2) 1), (Rlt_dec 0 (3 / 2)),
    (Rlt_dec (3 / 2) 1); lra.
Qed.

Lemma InBoundsBonus_evaluate_witness :
  InBoundsBonus.call
    (InBoundsBonus.init (np.Array [0; 0]) (np.Scalar 1) None (Some 2))
    [] [1; 1 / 2] [] false
  = Ok (1 * np.sum_list (map (awarded 2) [(1, 0, 1); (1 / 2, 0, 1)])).
Proof.
  exact (proj1 (InBoundsBonus_evaluate
           (InBoundsBonus.init (np.Array [0; 0]) (np.Scalar 1) None (Some 2))
           [] [1; 1 / 2] [] false eq_refl I)).
Defined.

(** ** The penalty-function selector *)

(** C3.  For a selector string other than ['abs'] and ['squared'], the
    constructors of [OutOfBoundsActionCost], [ActionCost] and
    [ModulationDifferencePenalty] raise an exception that names the
    selector; no object is built, so nothing can be evaluated, and no
    penalty function is chosen in its place. *)
Theorem invalid_func_type_raises :
  forall (func_type : string),
    func_type <> "abs"%string ->
    func_type <> "squared"%string ->
    let error :=
      Exception (func_type ++ " is not a valid function type!")%string in
    (forall lb ub scale const,
        OutOfBoundsActionCost.init lb ub scale const (Some func_type)
        = Raise error)
    /\ (forall mean scale,
          ActionCost.init mean scale (Some func_type) = Raise error)
    /\ (forall modulator predictors scale,
          ModulationDifferencePenalty.init modulator predictors scale
            (Some func_type) = Raise error).
Proof.
  intros func_type Habs Hsq error.
  apply String.eqb_neq in Habs. apply String.eqb_neq in Hsq.
  unfold OutOfBoundsActionCost.init, ActionCost.init,
    ModulationDifferencePenalty.init, kwarg.
  rewrite Habs, Hsq. repeat split.
Qed.

Lemma invalid_func_type_raises_witness :
  ActionCost.init (np.Array [0; 0]) None (Some "bogus"%string)
  = Raise (Exception "bogus is not a valid function type!").
Proof.
  refine (proj1 (proj2 (invalid_func_type_raises "bogus" _ _)) _ _);
    discriminate.
Defined.

(** ** TargetVelocityReward *)

Lemma exp_neg_sqr_lt_1 (d : R) : d <> 0 -> 0 < exp (- Rsqr d) < 1.
Proof.
  intros Hd. split; [apply exp_pos|].
  rewrite <- exp_0. apply exp_increasing.
  pose proof (Rsqr_pos_lt d Hd). lra.
Qed.

(** C4.  When the observation holds [v] at the configured index,
    [TargetVelocityReward.__call__] returns [exp(-(v - target)^2)]: this is
    [1] when [v] is the target, it lies in the closed interval from [0] to
    [1], and of two observations the one whose velocity is at least as far
    from the target gets a reward that is not larger. *)
Theorem TargetVelocityReward_evaluate :
  forall (self : TargetVelocityReward.t) (state action next_state : list R)
         (absorbing : bool) (v : R),
    getitem state self.(TargetVelocityReward.x_vel_idx) = Ok v ->
    let target := self.(TargetVelocityReward.target_vel) in
    let result := TargetVelocityReward.call self state action next_state absorbing in
    result = Ok (exp (- (v - target) ^ 2))
    /\ (v = target -> result = Ok 1)
    /\ (exists r, result = Ok r /\ 0 <= r <= 1)
    /\ (forall state' action' next_state' absorbing' v',
          getitem state' self.(TargetVelocityReward.x_vel_idx) = Ok v' ->
          Rabs (v - target) <= Rabs (v' - target) ->
          exists r r',
            result = Ok r
            /\ TargetVelocityReward.call self state' action' next_state' absorbing'
               = Ok r'
            /\ r' <= r).
Proof.
  intros self state action next_state absorbing v Hv target result.
  assert (result = Ok (exp (- Rsqr (v - target)))) as Hres.
  { subst result. unfold TargetVelocityReward.call. now rewrite Hv. }
  rewrite Hres. repeat split.
  - f_equal. f_equal. unfold Rsqr. lra.
  - intros ->. f_equal. rewrite <- exp_0. f_equal. unfold Rsqr. lra.
  - eexists; split; [reflexivity|].
    destruct (Req_dec (v - target) 0) as [E|E].
    + rewrite E, Rsqr_0, Ropp_0, exp_0. lra.
    + pose proof (exp_neg_sqr_lt_1 _ E). lra.
  - intros state' action' next_state' absorbing' v' Hv' Hfar.
    do 2 eexists. split; [reflexivity|]. split.
    + unfold TargetVelocityReward.call. rewrite Hv'. reflexivity.
    + fold target. apply Rsqr_le_abs_1 in Hfar.
      destruct Hfar as [Hlt | Heq].
      * left. apply exp_increasing. lra.
      * right. now rewrite Heq.
Qed.

Lemma TargetVelocityReward_evaluate_witness :
  TargetVelocityReward.call (TargetVelocityReward.init 1 (-1)) [0; 3; 1] [] []
    false = Ok 1.
Proof.
  exact (proj1 (proj2 (TargetVelocityReward_evaluate
           (TargetVelocityReward.init 1 (-1)) [0; 3; 1] [] [] false 1 eq_refl))
         eq_refl).
Defined.

(** In binary64 the reward reaches both ends of the interval off the
    target.  For the target [0] and the velocity [2 ^ -600], which is not
    the target, the square of the deviation underflows to zero and the call
    returns [exp(-0.0) = 1.0]; for the velocity [2 ^ 600] the square
    overflows and the call returns [exp(-inf) = 0.0]. *)
Lemma TargetVelocityReward_evaluate_counterexample :
  (PrimFloat.eqb 0x1p-600 0 = false
   /\ Binary64.TargetVelocityReward.call
        (Binary64.TargetVelocityReward.init 0 0) [0x1p-600] [] [] false
      = Ok (Some 1)
   /\ PrimFloat.ltb 1 1 = false
   /\ Binary64.TargetVelocityReward.call
        (Binary64.TargetVelocityReward.init 0 0) [0x1p600] [] [] false
      = Ok (Some 0)
   /\ PrimFloat.ltb 0 0 = false)%float.
Proof. vm_compute. repeat split. Qed.

(** ** MultiTargetVelocityReward *)

Lemma astype_int_IZR (z : Z) : np.astype_int (IZR z) = z.
Proof.
  unfold np.astype_int. destruct (Rle_dec 0 (IZR z)) as [H|H].
  - symmetry. apply Int_part_spec. lra.
  - rewrite <- opp_IZR. rewrite <- (Int_part_spec (IZR (- z)) (- z)); [lia | lra].
Qed.

Lemma shift_in_bit (acc b : Z) :
  (0 <= acc)%Z -> is_bit b ->
  Z.lor (Z.shiftl acc 1) (if Z.eqb b 0 then 0 else 1)%Z = (2 * acc + b)%Z.
Proof.
  intros Hacc [-> | ->]; destruct acc as [|p|p]; try lia; reflexivity.
Qed.

Lemma packbits_from_one_byte :
  forall (bits : list Z) (acc : Z) (k : nat),
    Forall is_bit bits ->
    (0 <= acc)%Z ->
    (1 <= k + length bits <= 8)%nat ->
    np.packbits_from bits acc k
    = [Z.shiftl (fold_left (fun a b => (2 * a + b)%Z) bits acc)
                (8 - Z.of_nat (k + length bits))].
Proof.
  induction bits as [|b bits IH]; intros acc k Hbits Hacc Hlen;
    cbn [np.packbits_from fold_left length] in *.
  - destruct k as [|k]; [lia|]. rewrite Nat.add_0_r. reflexivity.
  - inversion Hbits as [|? ? Hb Hbits']; subst.
    rewrite (shift_in_bit _ _ Hacc Hb).
    destruct (Nat.eqb_spec (S k) 8) as [Hk|Hk].
    + destruct bits as [|b' bits]; [|simpl in Hlen; lia].
      cbn [np.packbits_from fold_left length Nat.eqb].
      replace (8 - Z.of_nat (k + 1))%Z with 0%Z by lia.
      now rewrite Z.shiftl_0_r.
    + rewrite IH; try assumption.
      * do 3 f_equal. lia.
      * destruct Hb; lia.
      * lia.
Qed.

Ltac bits_ok :=
  repeat first
    [ apply Forall_nil
    | apply Forall_cons; [first [left; reflexivity | right; reflexivity]|] ].

Lemma env_index_big_endian (bits : list Z) :
  Forall is_bit bits ->
  (1 <= length bits <= 8)%nat ->
  MultiTargetVelocityReward.env_index (map IZR bits) = [big_endian bits].
Proof.
  intros Hbits Hlen. unfold MultiTargetVelocityReward.env_index, np.packbits.
  rewrite map_map, (map_ext _ (fun z => z) astype_int_IZR), map_id, length_map.
  rewrite packbits_from_one_byte by (simpl; auto; lia).
  rewrite Nat.add_0_l. unfold np.right_shift, big_endian. cbn [map].
  rewrite Z.shiftr_shiftl_l by lia.
  now rewrite Z.sub_diag, Z.shiftl_0_r.
Qed.

Lemma slice_from_neg_app {A : Type} (prefix tail : list A) (k : Z) :
  (1 <= k)%Z -> Z.of_nat (length tail) = k ->
  slice_from_neg (prefix ++ tail) k = tail.
Proof.
  intros Hk Hlen. unfold slice_from_neg.
  destruct (Z.ltb_spec (- k) 0) as [_|H]; [|lia].
  rewrite length_app.
  replace (Z.to_nat (Z.max 0 (- k + Z.of_nat (length prefix + length tail))))
    with (length prefix) by lia.
  rewrite skipn_app, skipn_all, Nat.sub_diag. reflexivity.
Qed.

(** C2.  Let the observation end with the [env_id_len] entries of a bit
    vector, [1 <= env_id_len <= 8].  The packbits-and-shift decoding of
    [MultiTargetVelocityReward.__call__] yields the big-endian integer [ind]
    of the bit vector, and the call returns
    [exp(-(v_x - target * scalings[ind])^2)].  With [env_id_len = 2] and
    [scalings = [1, 2, 3, 4]] the bit vector [[1, 0]] decodes to index [2]
    and scales the target velocity by [3]. *)
Theorem MultiTargetVelocityReward_evaluate :
  forall (self : MultiTargetVelocityReward.t) (prefix : list R)
         (bits : list Z) (action next_state : list R) (absorbing : bool),
    let k := self.(MultiTargetVelocityReward.env_id_len) in
    (1 <= k <= 8)%Z ->
    Z.of_nat (length bits) = k ->
    Forall is_bit bits ->
    let state := prefix ++ map IZR bits in
    let ind := big_endian bits in
    MultiTargetVelocityReward.env_index (slice_from_neg state k) = [ind]
    /\ (forall v scaling,
          getitem state self.(MultiTargetVelocityReward.x_vel_idx) = Ok v ->
          getitem self.(MultiTargetVelocityReward.scalings) ind = Ok scaling ->
          MultiTargetVelocityReward.call self state action next_state absorbing
          = Ok (exp (- (v - self.(MultiTargetVelocityReward.target_vel) * scaling) ^ 2)))
    /\ MultiTargetVelocityReward.env_index [1; 0] = [2%Z]
    /\ (forall target v,
          MultiTargetVelocityReward.call
            (MultiTargetVelocityReward.init target 0 2 [1; 2; 3; 4])
            [v; 1; 0] action next_state absorbing
          = Ok (exp (- (v - target * 3) ^ 2))).
Proof.
  intros self prefix bits action next_state absorbing k Hk Hlen Hbits state ind.
  assert (forall (self : MultiTargetVelocityReward.t) prefix bits v scaling,
             let k := self.(MultiTargetVelocityReward.env_id_len) in
             let state := prefix ++ map IZR bits in
             (1 <= k <= 8)%Z -> Z.of_nat (length bits) = k -> Forall is_bit bits ->
             getitem state self.(MultiTargetVelocityReward.x_vel_idx) = Ok v ->
             getitem self.(MultiTargetVelocityReward.scalings) (big_endian bits)
             = Ok scaling ->
             MultiTargetVelocityReward.call self state action next_state absorbing
             = Ok (exp (- (v - self.(MultiTargetVelocityReward.target_vel) * scaling) ^ 2)))
    as Hcall.
  { clear. intros self prefix bits v scaling k state Hk Hlen Hbits Hv Hs.
    unfold MultiTargetVelocityReward.call. fold state. rewrite Hv, bind_Ok.
    unfold state. fold k.
    rewrite slice_from_neg_app by (rewrite ?length_map; lia).
    rewrite env_index_big_endian by (auto; lia).
    change (getitem [big_endian bits] 0) with (Ok (big_endian bits)).
    rewrite bind_Ok, Hs, bind_Ok. do 3 f_equal. unfold Rsqr. lra. }
  split; [|split; [|split]].
  - subst state. rewrite slice_from_neg_app by (rewrite ?length_map; lia).
    apply env_index_big_endian; [assumption | lia].
  - intros v scaling Hv Hs. now apply Hcall.
  - apply (env_index_big_endian [1; 0]%Z).
    + bits_ok.
    + simpl; lia.
  - intros target v.
    apply (Hcall (MultiTargetVelocityReward.init target 0 2 [1; 2; 3; 4])
                 [v] [1; 0]%Z v 3).
    + simpl; lia.
    + reflexivity.
    + bits_ok.
    + reflexivity.
    + reflexivity.
Qed.

Lemma MultiTargetVelocityReward_evaluate_witness :
  MultiTargetVelocityReward.env_index
    (slice_from_neg ([7; 5] ++ map IZR [1; 1; 0]%Z) 3) = [6%Z].
Proof.
  refine (proj1 (MultiTargetVelocityReward_evaluate
            (MultiTargetVelocityReward.init 1 0 3 [1; 1; 1; 1; 1; 1; 1; 1])
            [7; 5] [1; 1; 0]%Z [] [] false _ eq_refl _)).
  - simpl; lia.
  - bits_ok.
Defined.

(** ** ModulationDifferencePenalty *)

(** C5.  A call of [ModulationDifferencePenalty.__call__] replaces the
    cached cycle progress by the results of the predictors, in their order,
    on the current observation, and leaves the configuration as it is; when
    the modulator returns an action of the length of its input, the call
    returns [-scale * sum(penaltyFunc(action - modulatedAction))]; and a
    second call on an observation on which the predictors answer differently
    leaves a cached cycle progress different from the one after the first. *)
Theorem ModulationDifferencePenalty_evaluate :
  forall (self : ModulationDifferencePenalty.t)
         (state action next_state : list R) (absorbing : bool),
    let predictors := self.(ModulationDifferencePenalty.cycle_percentage_predictors) in
    let predict := fun s => map (fun channel => channel.(predict_cycle_percentage) s)
                                predictors in
    let result := fst (ModulationDifferencePenalty.call self state action
                         next_state absorbing) in
    let self' := snd (ModulationDifferencePenalty.call self state action
                        next_state absorbing) in
    let modulated :=
      self.(ModulationDifferencePenalty.action_space_modulator).(modulate_action)
        action (predict state) in
    self'.(ModulationDifferencePenalty.cycle_progress) = predict state
    /\ self' = ModulationDifferencePenalty.set_cycle_progress self (predict state)
    /\ (length modulated = length action ->
        result
        = Ok (- self.(ModulationDifferencePenalty.reward_scale)
              * np.sum (self.(ModulationDifferencePenalty.func)
                  (np.Array (map (fun c => fst c - snd c)
                                 (combine action modulated))))))
    /\ (forall state2 action2 next_state2 absorbing2,
          predict state2 <> predict state ->
          (snd (ModulationDifferencePenalty.call self' state2 action2
                  next_state2 absorbing2)).(ModulationDifferencePenalty.cycle_progress)
          = predict state2
          /\ (snd (ModulationDifferencePenalty.call self' state2 action2
                     next_state2 absorbing2)).(ModulationDifferencePenalty.cycle_progress)
             <> self'.(ModulationDifferencePenalty.cycle_progress)).
Proof.
  intros self state action next_state absorbing predictors predict result self'
    modulated.
  repeat split.
  - intros Hlen. subst result. unfold ModulationDifferencePenalty.call.
    cbn [fst ModulationDifferencePenalty.set_cycle_progress
         ModulationDifferencePenalty.cycle_progress
         ModulationDifferencePenalty.action_space_modulator
         ModulationDifferencePenalty.reward_scale
         ModulationDifferencePenalty.func].
    fold predictors. fold (predict state). fold modulated.
    unfold np.subtract. rewrite broadcast2_arrays by congruence.
    rewrite bind_Ok, zip_with_combine. f_equal. lra.
  - intros Hsame. apply H. exact Hsame.
Qed.

Lemma ModulationDifferencePenalty_evaluate_witness :
  ModulationDifferencePenalty.call
    {| ModulationDifferencePenalty.cycle_percentage_predictors :=
         [ {| predict_cycle_percentage := fun s => nth 0 s 0 |};
           {| predict_cycle_percentage := fun s => nth 1 s 0 |} ];
       ModulationDifferencePenalty.action_space_modulator :=
         {| modulate_action := fun a progress => map (Rmult (nth 0 progress 0)) a |};
       ModulationDifferencePenalty.cycle_progress := [0; 0];
       ModulationDifferencePenalty.reward_scale := 1;
       ModulationDifferencePenalty.func := np.abs |}
    [2; 3] [1; 1; 1] [] false
  = (Ok (- 1 * np.sum (np.abs (np.Array [1 - 2 * 1; 1 - 2 * 1; 1 - 2 * 1]))),
     {| ModulationDifferencePenalty.cycle_percentage_predictors :=
         [ {| predict_cycle_percentage := fun s => nth 0 s 0 |};
           {| predict_cycle_percentage := fun s => nth 1 s 0 |} ];
       ModulationDifferencePenalty.action_space_modulator :=
         {| modulate_action := fun a progress => map (Rmult (nth 0 progress 0)) a |};
       ModulationDifferencePenalty.cycle_progress := [2; 3];
       ModulationDifferencePenalty.reward_scale := 1;
       ModulationDifferencePenalty.func := np.abs |}).
Proof.
  set (self := {| ModulationDifferencePenalty.cycle_progress := [0; 0] |}).
  destruct (ModulationDifferencePenalty_evaluate self [2; 3] [1; 1; 1] [] false)
    as (_ & Hself & Hres & _).
  specialize (Hres eq_refl).
  rewrite (surjective_pairing (ModulationDifferencePenalty.call _ _ _ _ _)).
  rewrite Hres, Hself. reflexivity.
Defined.

(** ** VelocityVectorReward *)

(** C7.  When the observation holds [v_x], [v_y] and the desired speed at
    the configured indices and nine entries at the indices of the rotation
    matrix, [VelocityVectorReward.__call__] returns
    [exp(-5 * ||(v_x, v_y) - desired||)], where
    [desired = speed * (cos angle, sin angle)] and [angle] is the result of
    [mat2angle_xy] on the entries as a 3x3 matrix, row by row, minus
    [pi/2]. *)
Theorem VelocityVectorReward_evaluate :
  forall (mat2angle_xy : list (list R) -> R) (self : VelocityVectorReward.t)
         (state action next_state : list R) (absorbing : bool)
         (v_x v_y speed m00 m01 m02 m10 m11 m12 m20 m21 m22 : R),
    getitem state self.(VelocityVectorReward.x_vel_idx) = Ok v_x ->
    getitem state self.(VelocityVectorReward.y_vel_idx) = Ok v_y ->
    getitems state self.(VelocityVectorReward.rot_mat_idx)
    = Ok [m00; m01; m02; m10; m11; m12; m20; m21; m22] ->
    getitem state self.(VelocityVectorReward.goal_vel_idx) = Ok speed ->
    let angle :=
      mat2angle_xy [[m00; m01; m02]; [m10; m11; m12]; [m20; m21; m22]] - PI / 2 in
    let desired_x := speed * cos angle in
    let desired_y := speed * sin angle in
    VelocityVectorReward.call mat2angle_xy self state action next_state absorbing
    = Ok (exp (- 5 * sqrt ((v_x - desired_x) ^ 2 + (v_y - desired_y) ^ 2))).
Proof.
  intros mat2angle_xy self state action next_state absorbing
    v_x v_y speed m00 m01 m02 m10 m11 m12 m20 m21 m22 Hx Hy Hm Hs
    angle desired_x desired_y.
  unfold VelocityVectorReward.call.
  rewrite Hx, bind_Ok, Hy, bind_Ok, Hm, bind_Ok.
  cbn [VelocityVectorReward.reshape_3_3]. rewrite bind_Ok, Hs, bind_Ok.
  fold angle. unfold np.linalg_norm.
  cbn [map np.zip_with np.sum_list fold_right].
  fold desired_x desired_y. do 4 f_equal. unfold Rsqr. lra.
Qed.

(** The observation [[3; 4; 2; 1; 0; 0; 0; 1; 0; 0; 0; 1]] with an angle
    function that always answers [pi/2]. *)
Lemma VelocityVectorReward_evaluate_witness :
  VelocityVectorReward.call (fun _ => PI / 2)
    (VelocityVectorReward.init 0 1 [3; 4; 5; 6; 7; 8; 9; 10; 11]%Z 2)
    [3; 4; 2; 1; 0; 0; 0; 1; 0; 0; 0; 1] [] [] false
  = Ok (exp (- 5 * sqrt ((3 - 2 * cos (PI / 2 - PI / 2)) ^ 2
                         + (4 - 2 * sin (PI / 2 - PI / 2)) ^ 2))).
Proof.
  exact (VelocityVectorReward_evaluate (fun _ => PI / 2)
           (VelocityVectorReward.init 0 1 [3; 4; 5; 6; 7; 8; 9; 10; 11]%Z 2)
           [3; 4; 2; 1; 0; 0; 0; 1; 0; 0; 0; 1] [] [] false
           3 4 2 1 0 0 0 1 0 0 0 1 eq_refl eq_refl eq_refl eq_refl).
Defined.

(** ** The interface: [reset_state] and the [absorbing] flag *)

(** C9.  For every built-in variant [reset_state] returns the object as it
    is; for [ModulationDifferencePenalty] the cycle progress cached by the
    last call is still there after a reset. *)
Theorem reset_state_noop :
  (forall r : reward, reset_state r = r)
  /\ (forall (self : ModulationDifferencePenalty.t)
             (state action next_state : list R) (absorbing : bool),
        let self' := snd (ModulationDifferencePenalty.call self state action
                            next_state absorbing) in
        reset_state (IsModulationDifferencePenalty self')
        = IsModulationDifferencePenalty self'
        /\ (RewardInterface.reset_state self').(ModulationDifferencePenalty.cycle_progress)
           = map (fun channel => channel.(predict_cycle_percentage) state)
                 self.(ModulationDifferencePenalty.cycle_percentage_predictors)).
Proof.
  split.
  - intros r. destruct r; reflexivity.
  - intros self state action next_state absorbing self'. split; reflexivity.
Qed.

(** C10.  For every built-in variant, two calls on the same object and the
    same observation, action and next observation that differ in the
    [absorbing] flag only return the same value (or raise the same
    exception) and leave the same object. *)
Theorem absorbing_irrelevant :
  forall (mat2angle_xy : list (list R) -> R) (r : reward)
         (state action next_state : list R) (absorbing absorbing' : bool),
    call mat2angle_xy r state action next_state absorbing
    = call mat2angle_xy r state action next_state absorbing'.
Proof.
  intros mat2angle_xy r state action next_state absorbing absorbing'.
  destruct r; reflexivity.
Qed.

(** * Further properties of the reward classes *)

(** ** Indexing *)

Lemma getitem_Ok {A : Type} (l : list A) (i : Z) :
  in_range (length l) i -> exists v, getitem l i = Ok v.
Proof.
  unfold in_range, getitem. intros Hi.
  set (j := if (i <? 0)%Z then (i + Z.of_nat (length l))%Z else i).
  assert (0 <= j < Z.of_nat (length l))%Z as Hj
    by (subst j; destruct (Z.ltb_spec i 0); lia).
  replace ((0 <=? j) && (j <? Z.of_nat (length l)))%Z with true
    by (symmetry; apply andb_true_iff; split;
        [apply Z.leb_le | apply Z.ltb_lt]; lia).
  destruct (nth_error l (Z.to_nat j)) as [v|] eqn:E; [now exists v|].
  apply nth_error_None in E. lia.
Qed.

Lemma getitem_IndexError {A : Type} (l : list A) (i : Z) :
  ~ in_range (length l) i -> getitem l i = Raise IndexError.
Proof.
  unfold in_range, getitem. intros Hi.
  set (j := if (i <? 0)%Z then (i + Z.of_nat (length l))%Z else i).
  assert (~ (0 <= j < Z.of_nat (length l)))%Z as Hj
    by (subst j; destruct (Z.ltb_spec i 0); lia).
  destruct (Z.leb_spec 0 j), (Z.ltb_spec j (Z.of_nat (length l)));
    simpl; try reflexivity; lia.
Qed.

Lemma getitems_Ok {A : Type} (l : list A) :
  forall idx, Forall (in_range (length l)) idx ->
    exists vs, getitems l idx = Ok vs
               /\ Forall2 (fun i v => getitem l i = Ok v) idx vs.
Proof.
  induction 1 as [|i idx Hi _ (vs & E & F)]; simpl.
  - exists []. split; [reflexivity | constructor].
  - destruct (getitem_Ok l i Hi) as (v & Ev).
    exists (v :: vs). rewrite Ev, bind_Ok, E, bind_Ok.
    split; [reflexivity | now constructor].
Qed.

Lemma getitems_IndexError {A : Type} (l : list A) :
  forall idx, Exists (fun i => ~ in_range (length l) i) idx ->
    getitems l idx = Raise IndexError.
Proof.
  induction idx as [|i idx IH]; intros Hex; [inversion Hex|].
  simpl. destruct (getitem l i) as [v|e] eqn:Ev.
  - inversion Hex as [? ? Hi | ? ? Hrest]; subst.
    + rewrite (getitem_IndexError l i Hi) in Ev. discriminate.
    + rewrite bind_Ok, (IH Hrest). reflexivity.
  - inversion Hex as [? ? Hi | ? ? Hrest]; subst.
    + rewrite (getitem_IndexError l i Hi) in Ev. inversion Ev. reflexivity.
    + assert (in_range (length l) i \/ ~ in_range (length l) i)
        as [Hin | Hout] by (unfold in_range; lia).
      * destruct (getitem_Ok l i Hin) as (v & Ev'). congruence.
      * rewrite (getitem_IndexError l i Hout) in Ev. inversion Ev. reflexivity.
Qed.

(** ** TargetVelocityReward: the velocity index and the range of the reward *)

Lemma exp_neg_sqr_range (d : R) : 0 < exp (- Rsqr d) <= 1.
Proof.
  split; [apply exp_pos|].
  destruct (Req_dec d 0) as [-> | Hd].
  - rewrite Rsqr_0, Ropp_0, exp_0. lra.
  - pose proof (exp_neg_sqr_lt_1 d Hd). lra.
Qed.

Lemma target_velocity_call_in_range (self : TargetVelocityReward.t)
    (state action next_state : list R) (absorbing : bool) :
  in_range (length state) self.(TargetVelocityReward.x_vel_idx) ->
  exists r,
    TargetVelocityReward.call self state action next_state absorbing = Ok r
    /\ 0 < r <= 1.
Proof.
  intros Hi. unfold TargetVelocityReward.call.
  destruct (getitem_Ok state _ Hi) as (v & Ev). rewrite Ev, bind_Ok.
  eexists; split; [reflexivity | apply exp_neg_sqr_range].
Qed.

(** X1.  [TargetVelocityReward.__call__] raises [IndexError] exactly when
    the velocity index is not an index of the observation (negative indices
    count from the end); otherwise it returns a reward in the closed
    interval from [0] to [1]. *)
Theorem TargetVelocityReward_index :
  forall (self : TargetVelocityReward.t) (state action next_state : list R)
         (absorbing : bool),
    let result := TargetVelocityReward.call self state action next_state absorbing in
    (in_range (length state) self.(TargetVelocityReward.x_vel_idx) ->
     exists r, result = Ok r /\ 0 <= r <= 1)
    /\ (~ in_range (length state) self.(TargetVelocityReward.x_vel_idx) ->
        result = Raise IndexError).
Proof.
  intros self state action next_state absorbing result. subst result.
  split; intros Hi.
  - destruct (target_velocity_call_in_range self state action next_state
                absorbing Hi) as (r & Hr & Hrange).
    exists r. split; [exact Hr | lra].
  - unfold TargetVelocityReward.call.
    now rewrite (getitem_IndexError state _ Hi).
Qed.

Lemma TargetVelocityReward_index_witness :
  TargetVelocityReward.call (TargetVelocityReward.init 1 (-4)) [0; 3; 1] [] []
    false = Raise IndexError.
Proof.
  refine (proj2 (TargetVelocityReward_index
            (TargetVelocityReward.init 1 (-4)) [0; 3; 1] [] [] false) _).
  unfold in_range; simpl; lia.
Defined.

(** ** MultiTargetVelocityReward: the decoded index *)

Lemma fold_bits_bounds :
  forall (bits : list Z) (acc : Z),
    Forall is_bit bits -> (0 <= acc)%Z ->
    (0 <= fold_left (fun a b => (2 * a + b)%Z) bits acc
     < (acc + 1) * 2 ^ Z.of_nat (length bits))%Z.
Proof.
  induction bits as [|b bits IH]; intros acc Hbits Hacc.
  - simpl. lia.
  - inversion Hbits as [|? ? Hb Hbits']; subst.
    cbn [fold_left length]. rewrite Nat2Z.inj_succ, Z.pow_succ_r by lia.
    assert (0 <= 2 * acc + b)%Z as Hnn by (destruct Hb; lia).
    destruct (IH (2 * acc + b)%Z Hbits' Hnn) as [H1 H2]. split; [exact H1|].
    assert (0 < 2 ^ Z.of_nat (length bits))%Z by (apply Z.pow_pos_nonneg; lia).
    destruct Hb; subst; nia.
Qed.

Lemma big_endian_bounds (bits : list Z) :
  Forall is_bit bits -> (0 <= big_endian bits < 2 ^ Z.of_nat (length bits))%Z.
Proof.
  intros Hbits. pose proof (fold_bits_bounds bits 0 Hbits (Z.le_refl 0)) as H.
  unfold big_endian. lia.
Qed.

Lemma fold_bits_injective :
  forall (bits bits' : list Z) (acc acc' : Z),
    Forall is_bit bits -> Forall is_bit bits' -> length bits = length bits' ->
    fold_left (fun a b => (2 * a + b)%Z) bits acc
    = fold_left (fun a b => (2 * a + b)%Z) bits' acc' ->
    acc = acc' /\ bits = bits'.
Proof.
  induction bits as [|b bits IH]; intros [|b' bits'] acc acc' Hb Hb' Hlen Heq;
    simpl in Hlen; try discriminate.
  - simpl in Heq. auto.
  - inversion Hb as [|? ? B HB]; inversion Hb' as [|? ? B' HB']; subst.
    cbn [fold_left] in Heq.
    destruct (IH bits' _ _ HB HB' ltac:(lia) Heq) as [Hacc ->].
    destruct B, B'; subst; split; try f_equal; lia.
Qed.

Lemma multi_target_call_scaled :
  forall (self : MultiTargetVelocityReward.t) (prefix : list R)
         (bits : list Z) (action next_state : list R) (absorbing : bool)
         (scaling : R),
    let k := self.(MultiTargetVelocityReward.env_id_len) in
    (1 <= k <= 8)%Z ->
    Z.of_nat (length bits) = k ->
    Forall is_bit bits ->
    getitem self.(MultiTargetVelocityReward.scalings) (big_endian bits)
    = Ok scaling ->
    let state := prefix ++ map IZR bits in
    MultiTargetVelocityReward.call self state action next_state absorbing
    = TargetVelocityReward.call
        (TargetVelocityReward.init
           (self.(MultiTargetVelocityReward.target_vel) * scaling)
           self.(MultiTargetVelocityReward.x_vel_idx))
        state action next_state absorbing.
Proof.
  intros self prefix bits action next_state absorbing scaling k Hk Hlen Hbits
    Hs state.
  unfold MultiTargetVelocityReward.call, TargetVelocityReward.call.
  cbn [TargetVelocityReward.init TargetVelocityReward.x_vel_idx
       TargetVelocityReward.target_vel].
  destruct (getitem state _) as [v|e]; [|reflexivity].
  rewrite !bind_Ok. subst state. fold k.
  rewrite slice_from_neg_app by (rewrite ?length_map; lia).
  rewrite env_index_big_endian by (auto; lia).
  change (getitem [big_endian bits] 0) with (Ok (big_endian bits)).
  now rewrite bind_Ok, Hs, bind_Ok.
Qed.

(** X2.  Under the conditions of the decoding (the observation ends with a
    bit vector of [env_id_len] entries, between one and eight), when the
    table of scalings holds [scaling] at the decoded index,
    [MultiTargetVelocityReward.__call__] is [TargetVelocityReward.__call__]
    for the target [target * scaling] and the same velocity index, including
    the [IndexError] of a velocity index outside the observation. *)
Theorem MultiTargetVelocityReward_as_TargetVelocityReward :
  forall (self : MultiTargetVelocityReward.t) (prefix : list R)
         (bits : list Z) (action next_state : list R) (absorbing : bool)
         (scaling : R),
    let k := self.(MultiTargetVelocityReward.env_id_len) in
    (1 <= k <= 8)%Z ->
    Z.of_nat (length bits) = k ->
    Forall is_bit bits ->
    getitem self.(MultiTargetVelocityReward.scalings) (big_endian bits)
    = Ok scaling ->
    let state := prefix ++ map IZR bits in
    MultiTargetVelocityReward.call self state action next_state absorbing
    = TargetVelocityReward.call
        (TargetVelocityReward.init
           (self.(MultiTargetVelocityReward.target_vel) * scaling)
           self.(MultiTargetVelocityReward.x_vel_idx))
        state action next_state absorbing.
Proof.
  intros self prefix bits action next_state absorbing scaling k Hk Hlen Hbits
    Hs state.
  now apply multi_target_call_scaled.
Qed.

Lemma MultiTargetVelocityReward_as_TargetVelocityReward_witness :
  MultiTargetVelocityReward.call
    (MultiTargetVelocityReward.init 2 0 2 [1; 2; 3; 4])
    ([5] ++ map IZR [1; 1]%Z) [] [] false
  = TargetVelocityReward.call (TargetVelocityReward.init (2 * 4) 0)
      ([5] ++ map IZR [1; 1]%Z) [] [] false.
Proof.
  refine (MultiTargetVelocityReward_as_TargetVelocityReward
            (MultiTargetVelocityReward.init 2 0 2 [1; 2; 3; 4])
            [5] [1; 1]%Z [] [] false 4 _ eq_refl _ eq_refl).
  - simpl; lia.
  - bits_ok.
Defined.

(** X3.  A table of at least [2 ^ env_id_len] scalings is always enough:
    with a valid velocity index and an observation that ends with a bit
    vector of [env_id_len] entries, between one and eight,
    [MultiTargetVelocityReward.__call__] raises nothing and returns a reward
    in the closed interval from [0] to [1]. *)
Theorem MultiTargetVelocityReward_full_table :
  forall (self : MultiTargetVelocityReward.t) (prefix : list R)
         (bits : list Z) (action next_state : list R) (absorbing : bool),
    let k := self.(MultiTargetVelocityReward.env_id_len) in
    (1 <= k <= 8)%Z ->
    Z.of_nat (length bits) = k ->
    Forall is_bit bits ->
    (2 ^ k <= Z.of_nat (length self.(MultiTargetVelocityReward.scalings)))%Z ->
    let state := prefix ++ map IZR bits in
    in_range (length state) self.(MultiTargetVelocityReward.x_vel_idx) ->
    exists r,
      MultiTargetVelocityReward.call self state action next_state absorbing = Ok r
      /\ 0 <= r <= 1.
Proof.
  intros self prefix bits action next_state absorbing k Hk Hlen Hbits Htable
    state Hx.
  pose proof (big_endian_bounds bits Hbits) as Hind. rewrite Hlen in Hind.
  destruct (getitem_Ok self.(MultiTargetVelocityReward.scalings)
              (big_endian bits)) as (scaling & Hs);
    [unfold in_range; lia|].
  subst state.
  rewrite (multi_target_call_scaled
             self prefix bits action next_state absorbing scaling Hk Hlen Hbits Hs).
  destruct (target_velocity_call_in_range
              (TargetVelocityReward.init
                 (self.(MultiTargetVelocityReward.target_vel) * scaling)
                 self.(MultiTargetVelocityReward.x_vel_idx))
              (prefix ++ map IZR bits) action next_state absorbing Hx)
    as (r & Hr & Hrange).
  exists r. split; [exact Hr | lra].
Qed.

Lemma MultiTargetVelocityReward_full_table_witness :
  exists r,
    MultiTargetVelocityReward.call
      (MultiTargetVelocityReward.init 2 (-3) 2 [1; 2; 3; 4])
      ([5] ++ map IZR [0; 1]%Z) [] [] true = Ok r
    /\ 0 <= r <= 1.
Proof.
  refine (MultiTargetVelocityReward_full_table
            (MultiTargetVelocityReward.init 2 (-3) 2 [1; 2; 3; 4])
            [5] [0; 1]%Z [] [] true _ eq_refl _ _ _).
  - simpl; lia.
  - bits_ok.
  - simpl; lia.
  - unfold in_range; simpl; lia.
Defined.

(** X4.  When the decoded index is not an index of the table of scalings,
    [MultiTargetVelocityReward.__call__] raises [IndexError] (the velocity
    index being valid and the observation ending with a bit vector of
    [env_id_len] entries, between one and eight). *)
Theorem MultiTargetVelocityReward_short_table :
  forall (self : MultiTargetVelocityReward.t) (prefix : list R)
         (bits : list Z) (action next_state : list R) (absorbing : bool),
    let k := self.(MultiTargetVelocityReward.env_id_len) in
    (1 <= k <= 8)%Z ->
    Z.of_nat (length bits) = k ->
    Forall is_bit bits ->
    (Z.of_nat (length self.(MultiTargetVelocityReward.scalings))
     <= big_endian bits)%Z ->
    let state := prefix ++ map IZR bits in
    in_range (length state) self.(MultiTargetVelocityReward.x_vel_idx) ->
    MultiTargetVelocityReward.call self state action next_state absorbing
    = Raise IndexError.
Proof.
  intros self prefix bits action next_state absorbing k Hk Hlen Hbits Htable
    state Hx.
  unfold MultiTargetVelocityReward.call.
  destruct (getitem_Ok state _ Hx) as (v & Ev). rewrite Ev, bind_Ok.
  subst state. fold k.
  rewrite slice_from_neg_app by (rewrite ?length_map; lia).
  rewrite env_index_big_endian by (auto; lia).
  change (getitem [big_endian bits] 0) with (Ok (big_endian bits)).
  rewrite bind_Ok, getitem_IndexError; [reflexivity|].
  pose proof (big_endian_bounds bits Hbits). unfold in_range. lia.
Qed.

Lemma MultiTargetVelocityReward_short_table_witness :
  MultiTargetVelocityReward.call
    (MultiTargetVelocityReward.init 2 0 2 [1; 2; 3])
    ([5] ++ map IZR [1; 1]%Z) [] [] false
  = Raise IndexError.
Proof.
  refine (MultiTargetVelocityReward_short_table
            (MultiTargetVelocityReward.init 2 0 2 [1; 2; 3])
            [5] [1; 1]%Z [] [] false _ eq_refl _ _ _).
  - simpl; lia.
  - bits_ok.
  - unfold big_endian; simpl; lia.
  - unfold in_range; simpl; lia.
Defined.

Lemma astype_int_zero (x : R) :
  (if Z.eqb (np.astype_int x) 0 then 0 else 1)%Z = bit_of x.
Proof.
  unfold np.astype_int, bit_of.
  destruct (Rle_dec 0 x) as [Hx|Hx].
  - destruct (base_Int_part x) as [H1 H2].
    destruct (Rle_dec 1 (Rabs x)) as [Hb|Hb];
      rewrite Rabs_right in Hb by lra.
    + assert (0 < Int_part x)%Z by (apply lt_IZR; lra).
      destruct (Z.eqb_spec (Int_part x) 0); [lia | reflexivity].
    + assert (-1 < Int_part x)%Z by (apply lt_IZR; lra).
      assert (Int_part x < 1)%Z by (apply lt_IZR; lra).
      destruct (Z.eqb_spec (Int_part x) 0); [reflexivity | lia].
  - destruct (base_Int_part (- x)) as [H1 H2].
    destruct (Rle_dec 1 (Rabs x)) as [Hb|Hb];
      rewrite Rabs_left in Hb by lra.
    + assert (0 < Int_part (- x))%Z by (apply lt_IZR; lra).
      destruct (Z.eqb_spec (- Int_part (- x)) 0); [lia | reflexivity].
    + assert (-1 < Int_part (- x))%Z by (apply lt_IZR; lra).
      assert (Int_part (- x) < 1)%Z by (apply lt_IZR; lra).
      destruct (Z.eqb_spec (- Int_part (- x)) 0); [reflexivity | lia].
Qed.

Lemma packbits_from_nonzero :
  forall (bits : list Z) (acc : Z) (k : nat),
    np.packbits_from bits acc k
    = np.packbits_from (map (fun b => if Z.eqb b 0 then 0 else 1)%Z bits) acc k.
Proof.
  induction bits as [|b bits IH]; intros acc k; [reflexivity|].
  cbn [np.packbits_from map].
  replace (if Z.eqb (if Z.eqb b 0 then 0 else 1) 0 then 0 else 1)%Z
    with (if Z.eqb b 0 then 0 else 1)%Z by (destruct (Z.eqb b 0); reflexivity).
  destruct (Nat.eqb (S k) 8); now rewrite IH.
Qed.

Lemma bit_of_is_bit (env_id : list R) : Forall is_bit (map bit_of env_id).
Proof.
  apply Forall_map, Forall_forall. intros x _. unfold bit_of, is_bit.
  destruct (Rle_dec 1 (Rabs x)); auto.
Qed.

(** X5.  On an env-id slice of one to eight arbitrary entries, the
    packbits-and-shift decoding reads an entry as a set bit exactly when
    its absolute value is at least one (the entry does not truncate to
    zero), and yields the big-endian integer of these bits: an entry [2]
    counts as [1], an entry [0.5] as [0]. *)
Theorem env_index_any_entries :
  forall env_id : list R,
    (1 <= length env_id <= 8)%nat ->
    MultiTargetVelocityReward.env_index env_id
    = [big_endian (map bit_of env_id)].
Proof.
  intros env_id Hlen. unfold MultiTargetVelocityReward.env_index, np.packbits.
  rewrite packbits_from_nonzero, map_map.
  rewrite (map_ext _ bit_of astype_int_zero).
  rewrite packbits_from_one_byte;
    [| apply bit_of_is_bit | lia | rewrite length_map; simpl; lia].
  rewrite length_map, Nat.add_0_l. unfold np.right_shift, big_endian. cbn [map].
  rewrite Z.shiftr_shiftl_l by lia.
  now rewrite Z.sub_diag, Z.shiftl_0_r.
Qed.

Lemma env_index_any_entries_witness :
  MultiTargetVelocityReward.env_index [2; 1 / 2; -3]
  = [big_endian (map bit_of [2; 1 / 2; -3])].
Proof.
  apply (env_index_any_entries [2; 1 / 2; -3]). simpl; lia.
Defined.

(** X6.  The decoding tells environment ids apart: two bit vectors of the
    same length, between one and eight, that decode to the same index are
    the same bit vector. *)
Theorem env_index_injective :
  forall bits bits' : list Z,
    Forall is_bit bits -> Forall is_bit bits' ->
    (1 <= length bits <= 8)%nat -> length bits = length bits' ->
    MultiTargetVelocityReward.env_index (map IZR bits)
    = MultiTargetVelocityReward.env_index (map IZR bits') ->
    bits = bits'.
Proof.
  intros bits bits' Hb Hb' Hlen Hsame Heq.
  rewrite !env_index_big_endian in Heq by (auto; lia).
  inversion Heq as [Hfold]. unfold big_endian in Hfold.
  now destruct (fold_bits_injective _ _ _ _ Hb Hb' Hsame Hfold).
Qed.

Lemma env_index_injective_witness : [1; 0]%Z = [1; 0]%Z.
Proof.
  refine (env_index_injective [1; 0]%Z [1; 0]%Z _ _ _ eq_refl eq_refl).
  - bits_ok.
  - bits_ok.
  - simpl; lia.
Defined.

Lemma slice_from_neg_whole {A : Type} (l : list A) (k : Z) :
  (k = 0 \/ Z.of_nat (length l) <= k)%Z -> slice_from_neg l k = l.
Proof.
  intros Hk. unfold slice_from_neg.
  destruct (Z.ltb_spec (- k) 0);
    match goal with |- skipn ?n l = l => replace n with 0%nat by lia end;
    reflexivity.
Qed.

(** X7.  The slice [state[-env_id_len:]] is the whole observation when
    [env_id_len] is zero or not smaller than the length of the observation:
    for an observation of one to eight bits the decoded index is then the
    big-endian integer of the whole observation, the velocity entry
    included. *)
Theorem env_id_is_whole_observation :
  forall (self : MultiTargetVelocityReward.t) (bits : list Z),
    let k := self.(MultiTargetVelocityReward.env_id_len) in
    let state := map IZR bits in
    (k = 0 \/ Z.of_nat (length state) <= k)%Z ->
    Forall is_bit bits ->
    (1 <= length bits <= 8)%nat ->
    slice_from_neg state k = state
    /\ MultiTargetVelocityReward.env_index (slice_from_neg state k)
       = [big_endian bits].
Proof.
  intros self bits k state Hk Hbits Hlen.
  rewrite (slice_from_neg_whole state k Hk). split; [reflexivity|].
  now apply env_index_big_endian.
Qed.

Lemma env_id_is_whole_observation_witness :
  slice_from_neg (map IZR [1; 0; 1]%Z) 0 = map IZR [1; 0; 1]%Z
  /\ MultiTargetVelocityReward.env_index (slice_from_neg (map IZR [1; 0; 1]%Z) 0)
     = [big_endian [1; 0; 1]%Z].
Proof.
  refine (env_id_is_whole_observation
            (MultiTargetVelocityReward.init 1 0 0 [1]) [1; 0; 1]%Z _ _ _).
  - left; reflexivity.
  - bits_ok.
  - simpl; lia.
Defined.

(** ** OutOfBoundsActionCost: sign of the reward and distance to the bounds *)

(** X8.  For an [OutOfBoundsActionCost] built by its constructor with a
    positive [reward_scale], whatever penalty function, and bounds, action
    and constant cost of magnitude at most [2 ^ 1022] (no difference
    overflows), the reward is never positive, and it is zero when every
    component lies in the closed interval of its bounds. *)
Theorem OutOfBoundsActionCost_nonpositive :
  forall (lb ub : np.ndarray) (scale const : option R) (ft : option string)
         (self : OutOfBoundsActionCost.t)
         (state action next_state : list R) (absorbing : bool),
    OutOfBoundsActionCost.init lb ub scale const ft = Ok self ->
    fits (length action) lb ->
    fits (length action) ub ->
    Forall moderate_component (bounded_components action lb ub) ->
    moderate (kwarg 0 const) ->
    0 < kwarg 1 scale ->
    exists r,
      OutOfBoundsActionCost.call self state action next_state absorbing = Ok r
      /\ r <= 0
      /\ (Forall within_bounds (bounded_components action lb ub) -> r = 0).
Proof.
  intros lb ub scale const ft self state action next_state absorbing Hinit HL HU
    _ _ Hscale.
  destruct (OutOfBoundsActionCost_init_inv _ _ _ _ _ _ Hinit)
    as (Elb & Eub & Esc & Ec & Hf).
  rewrite OutOfBoundsActionCost_call_eq by (rewrite ?Elb, ?Eub; assumption).
  rewrite Elb, Eub, Esc, Ec.
  destruct (penalty_sum _ Hf) as (g & Hsum & g0 & gnn & gpos).
  rewrite Hsum. eexists; split; [reflexivity|]. split.
  - assert (0 <= np.sum_list
                   (map g (map (fun c => lower_cost (kwarg 0 const) c
                                         + upper_cost (kwarg 0 const) c)
                               (bounded_components action lb ub)))) as Hnn.
    { apply sum_list_nonneg. rewrite !Forall_map. apply Forall_forall.
      intros c _. apply gnn. }
    nra.
  - intros Hin. rewrite sum_list_zero; [lra|].
    rewrite !Forall_map. eapply Forall_impl; [|exact Hin].
    intros c Hc. cbv beta. now rewrite within_bounds_no_cost.
Qed.

Lemma OutOfBoundsActionCost_nonpositive_witness :
  exists r,
    OutOfBoundsActionCost.call
      {| OutOfBoundsActionCost.lower_bound := np.Array [0; -1];
         OutOfBoundsActionCost.upper_bound := np.Scalar 1;
         OutOfBoundsActionCost.reward_scale := 3;
         OutOfBoundsActionCost.const_cost := -2;
         OutOfBoundsActionCost.func := np.square |}
      [] [1 / 2; 2] [] false = Ok r
    /\ r <= 0
    /\ (Forall within_bounds
          (bounded_components [1 / 2; 2] (np.Array [0; -1]) (np.Scalar 1)) ->
        r = 0).
Proof.
  refine (OutOfBoundsActionCost_nonpositive
            (np.Array [0; -1]) (np.Scalar 1) (Some 3) (Some (-2))
            (Some "squared"%string) _ [] [1 / 2; 2] [] false
            eq_refl eq_refl I _ _ _).
  - repeat apply Forall_cons; try apply Forall_nil;
      repeat split; apply moderate_small; rabs.
  - apply moderate_small. simpl. rabs.
  - simpl. lra.
Defined.

Lemma clip_distance_cost (c : R * R * R) :
  ordered_bounds c -> lower_cost 0 c + upper_cost 0 c = clip_distance c.
Proof.
  destruct c as [[a lo] hi].
  unfold ordered_bounds, lower_cost, upper_cost, clip_distance, clip, Rmax, Rmin.
  intros Hord.
  destruct (Rlt_dec a lo), (Rgt_dec a hi), (Rle_dec a hi);
    try destruct (Rle_dec lo a); try destruct (Rle_dec lo hi);
    unfold Rabs; destruct (Rcase_abs _); lra.
Qed.

(** X9.  With the absolute value as penalty function, no constant cost,
    lower bounds that do not exceed the upper bounds, and bounds and action
    of magnitude at most [2 ^ 1022] (no difference overflows), the reward
    of [OutOfBoundsActionCost] is [-scale] times the sum over the components
    of the distance between the component and its value clipped to the
    bounds. *)
Theorem OutOfBoundsActionCost_clip_distance :
  forall (self : OutOfBoundsActionCost.t)
         (state action next_state : list R) (absorbing : bool),
    self.(OutOfBoundsActionCost.func) = np.abs ->
    self.(OutOfBoundsActionCost.const_cost) = 0 ->
    fits (length action) self.(OutOfBoundsActionCost.lower_bound) ->
    fits (length action) self.(OutOfBoundsActionCost.upper_bound) ->
    let comps := bounded_components action
                   self.(OutOfBoundsActionCost.lower_bound)
                   self.(OutOfBoundsActionCost.upper_bound) in
    Forall ordered_bounds comps ->
    Forall moderate_component comps ->
    OutOfBoundsActionCost.call self state action next_state absorbing
    = Ok (- self.(OutOfBoundsActionCost.reward_scale)
          * np.sum_list (map clip_distance comps)).
Proof.
  intros self state action next_state absorbing Hf Hc HL HU comps Hord _.
  rewrite OutOfBoundsActionCost_call_eq by assumption.
  rewrite Hf, Hc. fold comps. cbn [np.abs np.map1 np.sum].
  f_equal.
  assert (map Rabs (map (fun r => lower_cost 0 r + upper_cost 0 r) comps)
          = map clip_distance comps) as ->.
  { rewrite map_map. apply map_ext_in. intros c Hin.
    rewrite Forall_forall in Hord. rewrite (clip_distance_cost c (Hord c Hin)).
    destruct c as [[a lo] hi]. unfold clip_distance. apply Rabs_Rabsolu. }
  lra.
Qed.

Lemma OutOfBoundsActionCost_clip_distance_witness :
  OutOfBoundsActionCost.call
    {| OutOfBoundsActionCost.lower_bound := np.Scalar 0;
       OutOfBoundsActionCost.upper_bound := np.Scalar 1;
       OutOfBoundsActionCost.reward_scale := 2;
       OutOfBoundsActionCost.const_cost := 0;
       OutOfBoundsActionCost.func := np.abs |}
    [] [3; -1] [] false
  = Ok (- 2 * np.sum_list (map clip_distance [(3, 0, 1); (-1, 0, 1)])).
Proof.
  refine (OutOfBoundsActionCost_clip_distance
            {| OutOfBoundsActionCost.lower_bound := np.Scalar 0;
               OutOfBoundsActionCost.upper_bound := np.Scalar 1;
               OutOfBoundsActionCost.reward_scale := 2;
               OutOfBoundsActionCost.const_cost := 0;
               OutOfBoundsActionCost.func := np.abs |}
            [] [3; -1] [] false eq_refl eq_refl I I _ _).
  - repeat constructor; simpl; lra.
  - repeat apply Forall_cons; try apply Forall_nil;
      repeat split; apply moderate_small; rabs.
Defined.

(** ** Broadcasting of bounds and reference vectors *)

Lemma broadcast2_mismatch (f : R -> R -> R) (l1 l2 : list R) :
  shape_mismatch (length l1) (length l2) ->
  np.broadcast2 f (np.Array l1) (np.Array l2) = Raise ValueError.
Proof.
  intros (Hne & H1 & H2). unfold np.broadcast2.
  destruct (Nat.eqb_spec (length l1) (length l2)) as [E|_]; [contradiction|].
  destruct l1 as [|a [|a' l1]], l2 as [|b [|b' l2]]; simpl in *;
    try reflexivity; contradiction.
Qed.

Lemma broadcast2_singleton_r (f : R -> R -> R) (l : list R) (c : R) :
  np.broadcast2 f (np.Array l) (np.Array [c])
  = np.broadcast2 f (np.Array l) (np.Scalar c).
Proof. destruct l as [|a [|a' l]]; reflexivity. Qed.

Lemma broadcast2_singleton_l (f : R -> R -> R) (l : list R) (c : R) :
  np.broadcast2 f (np.Array [c]) (np.Array l)
  = np.broadcast2 f (np.Scalar c) (np.Array l).
Proof. destruct l as [|a [|a' l]]; reflexivity. Qed.

(** X10.  An array of bounds or of reference values whose length differs
    from the length of the action, neither length being one, makes the call
    raise [ValueError]: the reference action of [ActionCost], the lower
    bound of [OutOfBoundsActionCost] and the upper bound of
    [InBoundsBonus]. *)
Theorem shape_mismatch_raises :
  forall (action bound : list R) (state next_state : list R) (absorbing : bool),
    shape_mismatch (length action) (length bound) ->
    (forall self,
        self.(ActionCost.action_mean) = np.Array bound ->
        ActionCost.call self state action next_state absorbing
        = Raise ValueError)
    /\ (forall self,
          self.(OutOfBoundsActionCost.lower_bound) = np.Array bound ->
          OutOfBoundsActionCost.call self state action next_state absorbing
          = Raise ValueError)
    /\ (forall self,
          self.(InBoundsBonus.upper_bound) = np.Array bound ->
          InBoundsBonus.call self state action next_state absorbing
          = Raise ValueError).
Proof.
  intros action bound state next_state absorbing Hbad.
  assert (shape_mismatch (length bound) (length action)) as Hbad'
    by (destruct Hbad as (? & ? & ?); repeat split; auto).
  repeat split; intros self E.
  - unfold ActionCost.call, np.subtract.
    now rewrite E, broadcast2_mismatch.
  - unfold OutOfBoundsActionCost.call, np.subtract.
    now rewrite E, broadcast2_mismatch.
  - unfold InBoundsBonus.call, np.greater.
    now rewrite E, broadcast2_mismatch.
Qed.

Lemma shape_mismatch_raises_witness :
  ActionCost.call
    {| ActionCost.action_mean := np.Array [0; 0; 0];
       ActionCost.reward_scale := 1; ActionCost.func := np.abs |}
    [] [1; 2] [] false
  = Raise ValueError.
Proof.
  refine (proj1 (shape_mismatch_raises [1; 2] [0; 0; 0] [] [] false _)
            {| ActionCost.action_mean := np.Array [0; 0; 0];
               ActionCost.reward_scale := 1; ActionCost.func := np.abs |}
            eq_refl).
  unfold shape_mismatch; simpl; lia.
Defined.

(** X11.  A bound or reference value given as an array of one entry acts
    as the scalar it holds, for actions of every length: in [ActionCost],
    in both bounds of [OutOfBoundsActionCost] and in both bounds of
    [InBoundsBonus]. *)
Theorem singleton_array_is_scalar :
  forall (state action next_state : list R) (absorbing : bool),
    (forall m scale func,
        ActionCost.call
          {| ActionCost.action_mean := np.Array [m];
             ActionCost.reward_scale := scale; ActionCost.func := func |}
          state action next_state absorbing
        = ActionCost.call
            {| ActionCost.action_mean := np.Scalar m;
               ActionCost.reward_scale := scale; ActionCost.func := func |}
            state action next_state absorbing)
    /\ (forall lo hi scale const func,
          OutOfBoundsActionCost.call
            {| OutOfBoundsActionCost.lower_bound := np.Array [lo];
               OutOfBoundsActionCost.upper_bound := np.Array [hi];
               OutOfBoundsActionCost.reward_scale := scale;
               OutOfBoundsActionCost.const_cost := const;
               OutOfBoundsActionCost.func := func |}
            state action next_state absorbing
          = OutOfBoundsActionCost.call
              {| OutOfBoundsActionCost.lower_bound := np.Scalar lo;
                 OutOfBoundsActionCost.upper_bound := np.Scalar hi;
                 OutOfBoundsActionCost.reward_scale := scale;
                 OutOfBoundsActionCost.const_cost := const;
                 OutOfBoundsActionCost.func := func |}
              state action next_state absorbing)
    /\ (forall lo hi scale bonus,
          InBoundsBonus.call
            (InBoundsBonus.init (np.Array [lo]) (np.Array [hi]) scale bonus)
            state action next_state absorbing
          = InBoundsBonus.call
              (InBoundsBonus.init (np.Scalar lo) (np.Scalar hi) scale bonus)
              state action next_state absorbing).
Proof.
  intros state action next_state absorbing. repeat split; intros.
  - unfold ActionCost.call, np.subtract. cbn [ActionCost.action_mean].
    now rewrite broadcast2_singleton_r.
  - unfold OutOfBoundsActionCost.call, np.subtract, np.less, np.greater.
    cbn [OutOfBoundsActionCost.lower_bound OutOfBoundsActionCost.upper_bound].
    now rewrite broadcast2_singleton_l, !broadcast2_singleton_r.
  - unfold InBoundsBonus.call, InBoundsBonus.init, np.greater.
    cbn [InBoundsBonus.lower_bound InBoundsBonus.upper_bound].
    now rewrite broadcast2_singleton_l, !broadcast2_singleton_r.
Qed.

(** ** ActionCost: sign of the reward and the two penalty functions *)

Lemma ActionCost_init_inv mean scale ft self :
  ActionCost.init mean scale ft = Ok self ->
  self.(ActionCost.action_mean) = mean
  /\ self.(ActionCost.reward_scale) = kwarg 1 scale
  /\ (self.(ActionCost.func) = np.abs \/ self.(ActionCost.func) = np.square).
Proof.
  unfold ActionCost.init.
  destruct (String.eqb _ "abs"); [|destruct (String.eqb _ "squared")];
    intros H; inversion H; subst; simpl; auto.
Qed.

Lemma action_cost_call_eq (self : ActionCost.t)
    (state action next_state : list R) (absorbing : bool) :
  fits (length action) self.(ActionCost.action_mean) ->
  ActionCost.call self state action next_state absorbing
  = Ok (-1 * self.(ActionCost.reward_scale)
        * np.sum (self.(ActionCost.func)
            (np.Array (map (fun c => fst c - snd c)
               (combine action
                  (expand (length action) self.(ActionCost.action_mean))))))).
Proof.
  intros Hfit. unfold ActionCost.call, np.subtract.
  now rewrite (broadcast2_fits_r _ _ _ Hfit), bind_Ok, zip_with_combine.
Qed.

Lemma sum_list_zero_inv (l : list R) :
  Forall (fun x => 0 <= x) l -> np.sum_list l = 0 -> Forall (fun x => x = 0) l.
Proof.
  induction 1 as [|x l Hx Hl IH]; intros Hsum; [constructor|].
  rewrite sum_list_cons in Hsum. pose proof (sum_list_nonneg l Hl).
  constructor; [lra | apply IH; lra].
Qed.

Lemma combine_no_difference :
  forall l1 l2 : list R, length l1 = length l2 ->
    Forall (fun c => fst c - snd c = 0) (combine l1 l2) <-> l1 = l2.
Proof.
  induction l1 as [|a l1 IH]; intros [|b l2] Hlen; simpl in Hlen;
    try discriminate.
  - split; [reflexivity | constructor].
  - simpl. split.
    + intros H. inversion H as [|? ? Hab Hrest]; subst. simpl in Hab.
      f_equal; [lra | apply IH; [lia | assumption]].
    + intros H. inversion H; subst. constructor; [simpl; lra|].
      apply IH; [lia | reflexivity].
Qed.

(** X12.  For an [ActionCost] built by its constructor with a positive
    [reward_scale], the reward is never positive and it is zero when the
    action equals the reference action, component by component; with the
    absolute value as penalty and a [reward_scale] of at least one, the
    reward is zero only then. *)
Theorem ActionCost_zero_at_mean :
  forall (mean : np.ndarray) (scale : option R) (ft : option string)
         (self : ActionCost.t) (state action next_state : list R)
         (absorbing : bool),
    ActionCost.init mean scale ft = Ok self ->
    fits (length action) mean ->
    0 < kwarg 1 scale ->
    exists r,
      ActionCost.call self state action next_state absorbing = Ok r
      /\ r <= 0
      /\ (action = expand (length action) mean -> r = 0)
      /\ (self.(ActionCost.func) = np.abs -> 1 <= kwarg 1 scale ->
          r = 0 -> action = expand (length action) mean).
Proof.
  intros mean scale ft self state action next_state absorbing Hinit Hfit Hscale.
  destruct (ActionCost_init_inv _ _ _ _ Hinit) as (Em & Es & Hf).
  rewrite action_cost_call_eq by (rewrite Em; assumption).
  rewrite Em, Es. destruct (penalty_sum _ Hf) as (g & Hsum & g0 & gnn & gpos).
  rewrite Hsum. eexists; split; [reflexivity|].
  set (diffs := map (fun c => fst c - snd c)
                    (combine action (expand (length action) mean))).
  assert (Forall (fun x => 0 <= x) (map g diffs)) as Hnn
    by (rewrite Forall_map; apply Forall_forall; intros c _; apply gnn).
  pose proof (sum_list_nonneg _ Hnn) as Hsum_nn.
  split; [nra|].
  pose proof (combine_no_difference action (expand (length action) mean)
                ltac:(now rewrite expand_length)) as Hsame.
  split.
  - intros Heq. apply Hsame in Heq. rewrite sum_list_zero; [lra|].
    subst diffs. rewrite !Forall_map.
    eapply Forall_impl; [|exact Heq]. intros c Hc. cbv beta.
    now rewrite Hc.
  - intros _ _ Hr. apply Hsame.
    assert (np.sum_list (map g diffs) = 0) as Hz by nra.
    apply sum_list_zero_inv in Hz; [|exact Hnn].
    subst diffs. rewrite !Forall_map in Hz.
    eapply Forall_impl; [|exact Hz]. intros c Hc. cbv beta in Hc.
    destruct (Req_dec (fst c - snd c) 0) as [E|E]; [exact E|].
    apply gpos in E. lra.
Qed.

Lemma ActionCost_zero_at_mean_witness :
  exists r,
    ActionCost.call
      {| ActionCost.action_mean := np.Scalar 1; ActionCost.reward_scale := 2;
         ActionCost.func := np.abs |} [] [1; 1] [] false = Ok r
    /\ r <= 0
    /\ ([1; 1] = expand 2 (np.Scalar 1) -> r = 0)
    /\ (np.abs = np.abs -> 1 <= 2 -> r = 0 -> [1; 1] = expand 2 (np.Scalar 1)).
Proof.
  refine (ActionCost_zero_at_mean (np.Scalar 1) (Some 2) (Some "abs"%string)
            _ [] [1; 1] [] false eq_refl I _).
  simpl. lra.
Defined.

(** X13.  The selector picks the penalty: an [ActionCost] built with
    ['squared'] returns [-scale] times the sum of the squared deviations
    from the reference action, one built with ['abs'] or without a selector
    returns [-scale] times the sum of their absolute values. *)
Theorem ActionCost_abs_and_squared :
  forall (mean : np.ndarray) (scale : option R)
         (state action next_state : list R) (absorbing : bool),
    fits (length action) mean ->
    let deviations := map (fun c => fst c - snd c)
                          (combine action (expand (length action) mean)) in
    (exists self,
        ActionCost.init mean scale (Some "squared"%string) = Ok self
        /\ ActionCost.call self state action next_state absorbing
           = Ok (- kwarg 1 scale * np.sum_list (map Rsqr deviations)))
    /\ (forall ft, ft = None \/ ft = Some "abs"%string ->
        exists self,
          ActionCost.init mean scale ft = Ok self
          /\ ActionCost.call self state action next_state absorbing
             = Ok (- kwarg 1 scale * np.sum_list (map Rabs deviations))).
Proof.
  intros mean scale state action next_state absorbing Hfit deviations. split.
  - eexists. split; [reflexivity|].
    rewrite action_cost_call_eq by exact Hfit.
    cbn [ActionCost.func ActionCost.reward_scale ActionCost.action_mean
         np.square np.map1 np.sum].
    fold deviations. f_equal. lra.
  - intros ft [-> | ->]; (eexists; split; [reflexivity|]);
      rewrite action_cost_call_eq by exact Hfit;
      cbn [ActionCost.func ActionCost.reward_scale ActionCost.action_mean
           np.abs np.map1 np.sum];
      fold deviations; f_equal; lra.
Qed.

Lemma ActionCost_abs_and_squared_witness :
  exists self,
    ActionCost.init (np.Array [0; 1]) None (Some "squared"%string) = Ok self
    /\ ActionCost.call self [] [3; -1] [] false
       = Ok (- 1 * np.sum_list (map Rsqr [3 - 0; -1 - 1])).
Proof.
  exact (proj1 (ActionCost_abs_and_squared (np.Array [0; 1]) None
                  [] [3; -1] [] false eq_refl)).
Defined.

(** ** InBoundsBonus: counting the components inside *)

Lemma in_bounds_call_eq (self : InBoundsBonus.t)
    (state action next_state : list R) (absorbing : bool) :
  fits (length action) self.(InBoundsBonus.lower_bound) ->
  fits (length action) self.(InBoundsBonus.upper_bound) ->
  InBoundsBonus.call self state action next_state absorbing
  = Ok (self.(InBoundsBonus.reward_scale)
        * np.sum_list
            (map (awarded self.(InBoundsBonus.bonus_val))
                 (bounded_components action self.(InBoundsBonus.lower_bound)
                                     self.(InBoundsBonus.upper_bound)))).
Proof.
  intros HL HU.
  unfold InBoundsBonus.call, bounded_components, np.multiply, np.greater.
  pose proof (expand_length _ _ HL) as EL.
  pose proof (expand_length _ _ HU) as EU.
  rewrite (broadcast2_fits_l _ _ _ HU), (broadcast2_fits_r _ _ _ HL).
  np_run. cbn [np.sum]. now rewrite in_bounds_awards.
Qed.

Lemma awarded_count (bonus : R) (comps : list (R * R * R)) :
  np.sum_list (map (awarded bonus) comps)
  = bonus * INR (length (filter strictly_inside_dec comps)).
Proof.
  induction comps as [|[[a lo] hi] comps IH]; [cbv [map np.sum_list fold_right filter length INR]; lra|].
  cbn [map filter]. rewrite sum_list_cons, IH.
  unfold awarded, strictly_inside_dec.
  destruct (Rlt_dec lo a), (Rlt_dec a hi); cbn [length];
    rewrite ?S_INR; lra.
Qed.

Lemma strictly_inside_dec_spec (c : R * R * R) :
  strictly_inside_dec c = true <-> strictly_inside c.
Proof.
  destruct c as [[a lo] hi]. unfold strictly_inside_dec, strictly_inside.
  destruct (Rlt_dec lo a), (Rlt_dec a hi); split; intros H;
    try reflexivity; try discriminate; lra.
Qed.

Lemma bounded_components_length (action : list R) (lb ub : np.ndarray) :
  fits (length action) lb -> fits (length action) ub ->
  length (bounded_components action lb ub) = length action.
Proof.
  intros HL HU. unfold bounded_components.
  rewrite !length_combine, !expand_length by assumption. lia.
Qed.

(** X14.  With a bonus of [1], the default, [InBoundsBonus.__call__]
    returns [scale] times the number of components that lie strictly
    between their bounds; with a non-negative scale the reward therefore
    lies between zero and [scale] times the length of the action, and it
    reaches that maximum when every component lies strictly inside. *)
Theorem InBoundsBonus_counts :
  forall (self : InBoundsBonus.t) (state action next_state : list R)
         (absorbing : bool),
    self.(InBoundsBonus.bonus_val) = 1 ->
    fits (length action) self.(InBoundsBonus.lower_bound) ->
    fits (length action) self.(InBoundsBonus.upper_bound) ->
    let comps := bounded_components action self.(InBoundsBonus.lower_bound)
                                    self.(InBoundsBonus.upper_bound) in
    let scale := self.(InBoundsBonus.reward_scale) in
    exists r,
      InBoundsBonus.call self state action next_state absorbing = Ok r
      /\ r = scale * INR (length (filter strictly_inside_dec comps))
      /\ (0 <= scale -> 0 <= r <= scale * INR (length action))
      /\ (Forall strictly_inside comps -> r = scale * INR (length action)).
Proof.
  intros self state action next_state absorbing Hbonus HL HU comps scale.
  rewrite in_bounds_call_eq by assumption. fold comps. fold scale.
  rewrite awarded_count, Hbonus. eexists; split; [reflexivity|].
  pose proof (bounded_components_length action _ _ HL HU) as Hlen. fold comps in Hlen.
  pose proof (filter_length_le strictly_inside_dec comps) as Hle.
  rewrite Hlen in Hle. apply le_INR in Hle.
  pose proof (pos_INR (length (filter strictly_inside_dec comps))) as Hpos.
  split; [lra|]. split.
  - intros Hscale. split; nra.
  - intros Hall.
    assert (filter strictly_inside_dec comps = comps) as ->.
    { apply forallb_filter_id. apply forallb_forall. intros c Hc.
      apply strictly_inside_dec_spec. rewrite Forall_forall in Hall. auto. }
    rewrite Hlen. lra.
Qed.

Lemma InBoundsBonus_counts_witness :
  exists r,
    InBoundsBonus.call
      (InBoundsBonus.init (np.Scalar 0) (np.Array [1; 2]) (Some 3) None)
      [] [1; 1] [] false = Ok r
    /\ r = 3 * INR (length (filter strictly_inside_dec [(1, 0, 1); (1, 0, 2)]))
    /\ (0 <= 3 -> 0 <= r <= 3 * INR 2)
    /\ (Forall strictly_inside [(1, 0, 1); (1, 0, 2)] -> r = 3 * INR 2).
Proof.
  exact (InBoundsBonus_counts
           (InBoundsBonus.init (np.Scalar 0) (np.Array [1; 2]) (Some 3) None)
           [] [1; 1] [] false eq_refl I eq_refl).
Defined.

(** X15.  When no upper bound exceeds its lower bound, [InBoundsBonus]
    awards nothing: the reward is zero for every action. *)
Theorem InBoundsBonus_empty_interval :
  forall (self : InBoundsBonus.t) (state action next_state : list R)
         (absorbing : bool),
    fits (length action) self.(InBoundsBonus.lower_bound) ->
    fits (length action) self.(InBoundsBonus.upper_bound) ->
    Forall empty_interval
      (bounded_components action self.(InBoundsBonus.lower_bound)
                          self.(InBoundsBonus.upper_bound)) ->
    InBoundsBonus.call self state action next_state absorbing = Ok 0.
Proof.
  intros self state action next_state absorbing HL HU Hempty.
  rewrite in_bounds_call_eq by assumption. f_equal.
  rewrite sum_list_zero; [lra|].
  rewrite Forall_map. eapply Forall_impl; [|exact Hempty].
  intros [[a lo] hi] Hc. unfold empty_interval in Hc. unfold awarded.
  destruct (Rlt_dec lo a), (Rlt_dec a hi); try reflexivity; lra.
Qed.

Lemma InBoundsBonus_empty_interval_witness :
  InBoundsBonus.call
    (InBoundsBonus.init (np.Scalar 1) (np.Scalar 1) None None)
    [] [1; 0; 2] [] false = Ok 0.
Proof.
  refine (InBoundsBonus_empty_interval
            (InBoundsBonus.init (np.Scalar 1) (np.Scalar 1) None None)
            [] [1; 0; 2] [] false I I _).
  repeat constructor; simpl; lra.
Defined.

(** ** VelocityVectorReward: range, maximum and the rotation-matrix block *)

Lemma velocity_vector_call_eq (mat2angle_xy : list (list R) -> R)
    (self : VelocityVectorReward.t) (state action next_state : list R)
    (absorbing : bool) (v_x v_y speed : R) (block : list R)
    (rot_mat : list (list R)) :
  getitem state self.(VelocityVectorReward.x_vel_idx) = Ok v_x ->
  getitem state self.(VelocityVectorReward.y_vel_idx) = Ok v_y ->
  getitems state self.(VelocityVectorReward.rot_mat_idx) = Ok block ->
  VelocityVectorReward.reshape_3_3 block = Ok rot_mat ->
  getitem state self.(VelocityVectorReward.goal_vel_idx) = Ok speed ->
  VelocityVectorReward.call mat2angle_xy self state action next_state absorbing
  = Ok (exp (- 5 * sqrt (Rsqr (v_x - speed * cos (mat2angle_xy rot_mat - PI / 2))
                         + Rsqr (v_y - speed * sin (mat2angle_xy rot_mat - PI / 2))))).
Proof.
  intros Hx Hy Hm Hr Hs. unfold VelocityVectorReward.call.
  rewrite Hx, bind_Ok, Hy, bind_Ok, Hm, bind_Ok, Hr, bind_Ok, Hs, bind_Ok.
  unfold np.linalg_norm. cbn [map np.zip_with np.sum_list fold_right].
  do 4 f_equal. lra.
Qed.

Lemma exp_neg_norm_range (p q : R) :
  0 < exp (- 5 * sqrt (Rsqr p + Rsqr q)) <= 1
  /\ (exp (- 5 * sqrt (Rsqr p + Rsqr q)) = 1 <-> p = 0 /\ q = 0).
Proof.
  pose proof (Rle_0_sqr p) as Hp. pose proof (Rle_0_sqr q) as Hq.
  pose proof (sqrt_pos (Rsqr p + Rsqr q)) as Hs.
  split; [split; [apply exp_pos|]|].
  - destruct (Req_dec (sqrt (Rsqr p + Rsqr q)) 0) as [E|E].
    + rewrite E, Rmult_0_r, exp_0. lra.
    + left. rewrite <- exp_0. apply exp_increasing. lra.
  - split.
    + intros H. rewrite <- exp_0 in H. apply exp_inv in H.
      assert (sqrt (Rsqr p + Rsqr q) = 0) as Hz by lra.
      apply sqrt_eq_0 in Hz; [|lra].
      split; [apply Rsqr_0_uniq | apply Rsqr_0_uniq]; lra.
    + intros [-> ->]. rewrite Rsqr_0, Rplus_0_r, sqrt_0, Rmult_0_r. apply exp_0.
Qed.

(** X16.  When the observation holds [v_x], [v_y] and the desired speed at
    the configured indices and nine entries at the indices of the rotation
    matrix, the reward of [VelocityVectorReward] lies in the closed
    interval from [0] to [1], and it is [1] when the velocity equals the
    desired velocity [speed * (cos angle, sin angle)]. *)
Theorem VelocityVectorReward_range :
  forall (mat2angle_xy : list (list R) -> R) (self : VelocityVectorReward.t)
         (state action next_state : list R) (absorbing : bool)
         (v_x v_y speed : R) (block : list R) (rot_mat : list (list R)),
    getitem state self.(VelocityVectorReward.x_vel_idx) = Ok v_x ->
    getitem state self.(VelocityVectorReward.y_vel_idx) = Ok v_y ->
    getitems state self.(VelocityVectorReward.rot_mat_idx) = Ok block ->
    VelocityVectorReward.reshape_3_3 block = Ok rot_mat ->
    getitem state self.(VelocityVectorReward.goal_vel_idx) = Ok speed ->
    let angle := mat2angle_xy rot_mat - PI / 2 in
    exists r,
      VelocityVectorReward.call mat2angle_xy self state action next_state
        absorbing = Ok r
      /\ 0 <= r <= 1
      /\ (v_x = speed * cos angle -> v_y = speed * sin angle -> r = 1).
Proof.
  intros mat2angle_xy self state action next_state absorbing v_x v_y speed
    block rot_mat Hx Hy Hm Hr Hs angle.
  rewrite (velocity_vector_call_eq _ _ _ _ _ _ _ _ _ _ _ Hx Hy Hm Hr Hs).
  fold angle. eexists; split; [reflexivity|].
  destruct (exp_neg_norm_range (v_x - speed * cos angle)
                               (v_y - speed * sin angle)) as [Hrange Hone].
  split; [lra|]. intros H1 H2. apply Hone. split; lra.
Qed.

Lemma VelocityVectorReward_range_witness :
  exists r,
    VelocityVectorReward.call (fun _ => PI / 2)
      (VelocityVectorReward.init 0 1 [3; 4; 5; 6; 7; 8; 9; 10; 11]%Z 2)
      [3; 4; 2; 1; 0; 0; 0; 1; 0; 0; 0; 1] [] [] false = Ok r
    /\ 0 <= r <= 1
    /\ (3 = 2 * cos (PI / 2 - PI / 2) -> 4 = 2 * sin (PI / 2 - PI / 2) -> r = 1).
Proof.
  exact (VelocityVectorReward_range (fun _ => PI / 2)
           (VelocityVectorReward.init 0 1 [3; 4; 5; 6; 7; 8; 9; 10; 11]%Z 2)
           [3; 4; 2; 1; 0; 0; 0; 1; 0; 0; 0; 1] [] [] false
           3 4 2 [1; 0; 0; 0; 1; 0; 0; 0; 1]
           [[1; 0; 0]; [0; 1; 0]; [0; 0; 1]]
           eq_refl eq_refl eq_refl eq_refl eq_refl).
Defined.

Lemma reshape_3_3_wrong_size (a : list R) :
  length a <> 9%nat -> VelocityVectorReward.reshape_3_3 a = Raise ValueError.
Proof.
  intros Hlen.
  do 10 (destruct a as [|? a]; [reflexivity || (simpl in Hlen; lia)|]).
  reflexivity.
Qed.

(** X17.  When the velocity indices and all indices of the rotation matrix
    are indices of the observation but the rotation matrix is not given by
    nine indices, [VelocityVectorReward.__call__] raises [ValueError] (the
    reshape to 3x3 fails); when one of the indices of the rotation matrix
    is not an index of the observation it raises [IndexError]. *)
Theorem VelocityVectorReward_rotation_block :
  forall (mat2angle_xy : list (list R) -> R) (self : VelocityVectorReward.t)
         (state action next_state : list R) (absorbing : bool),
    in_range (length state) self.(VelocityVectorReward.x_vel_idx) ->
    in_range (length state) self.(VelocityVectorReward.y_vel_idx) ->
    let result := VelocityVectorReward.call mat2angle_xy self state action
                    next_state absorbing in
    (Forall (in_range (length state)) self.(VelocityVectorReward.rot_mat_idx) ->
     length self.(VelocityVectorReward.rot_mat_idx) <> 9%nat ->
     result = Raise ValueError)
    /\ (Exists (fun i => ~ in_range (length state) i)
               self.(VelocityVectorReward.rot_mat_idx) ->
        result = Raise IndexError).
Proof.
  intros mat2angle_xy self state action next_state absorbing Hx Hy result.
  subst result. unfold VelocityVectorReward.call.
  destruct (getitem_Ok state _ Hx) as (v_x & Ex).
  destruct (getitem_Ok state _ Hy) as (v_y & Ey).
  rewrite Ex, bind_Ok, Ey, bind_Ok. split.
  - intros Hall Hlen.
    destruct (getitems_Ok state _ Hall) as (block & Eb & Hb).
    rewrite Eb, bind_Ok, reshape_3_3_wrong_size; [reflexivity|].
    apply Forall2_length in Hb. lia.
  - intros Hex. now rewrite (getitems_IndexError state _ Hex).
Qed.

Lemma VelocityVectorReward_rotation_block_witness :
  VelocityVectorReward.call (fun _ => 0)
    (VelocityVectorReward.init 0 1 [2; 3; 4; 5]%Z 2) [3; 4; 2; 1; 0; 0] [] []
    false
  = Raise ValueError.
Proof.
  refine (proj1 (VelocityVectorReward_rotation_block (fun _ => 0)
                   (VelocityVectorReward.init 0 1 [2; 3; 4; 5]%Z 2)
                   [3; 4; 2; 1; 0; 0] [] [] false _ _) _ _).
  - unfold in_range; simpl; lia.
  - unfold in_range; simpl; lia.
  - repeat constructor; unfold in_range; simpl; lia.
  - simpl; lia.
Defined.

(** X18.  With a desired speed of zero the reward of [VelocityVectorReward]
    is [exp(-5 * sqrt(v_x^2 + v_y^2))], whatever the rotation matrix and the
    angle function. *)
Theorem VelocityVectorReward_zero_speed :
  forall (mat2angle_xy : list (list R) -> R) (self : VelocityVectorReward.t)
         (state action next_state : list R) (absorbing : bool)
         (v_x v_y : R) (block : list R),
    getitem state self.(VelocityVectorReward.x_vel_idx) = Ok v_x ->
    getitem state self.(VelocityVectorReward.y_vel_idx) = Ok v_y ->
    getitems state self.(VelocityVectorReward.rot_mat_idx) = Ok block ->
    length block = 9%nat ->
    getitem state self.(VelocityVectorReward.goal_vel_idx) = Ok 0 ->
    VelocityVectorReward.call mat2angle_xy self state action next_state absorbing
    = Ok (exp (- 5 * sqrt (v_x ^ 2 + v_y ^ 2))).
Proof.
  intros mat2angle_xy self state action next_state absorbing v_x v_y block
    Hx Hy Hm Hlen Hs.
  assert (exists rot_mat, VelocityVectorReward.reshape_3_3 block = Ok rot_mat)
    as (rot_mat & Hr).
  { do 9 (destruct block as [|? block]; [discriminate|]).
    destruct block; [|discriminate]. eexists; reflexivity. }
  rewrite (velocity_vector_call_eq _ _ _ _ _ _ _ _ _ _ _ Hx Hy Hm Hr Hs).
  do 4 f_equal. unfold Rsqr. lra.
Qed.

Lemma VelocityVectorReward_zero_speed_witness :
  VelocityVectorReward.call (fun _ => 1)
    (VelocityVectorReward.init 0 1 [3; 4; 5; 6; 7; 8; 9; 10; 11]%Z 2)
    [3; 4; 0; 1; 0; 0; 0; 1; 0; 0; 0; 1] [] [] false
  = Ok (exp (- 5 * sqrt (3 ^ 2 + 4 ^ 2))).
Proof.
  exact (VelocityVectorReward_zero_speed (fun _ => 1)
           (VelocityVectorReward.init 0 1 [3; 4; 5; 6; 7; 8; 9; 10; 11]%Z 2)
           [3; 4; 0; 1; 0; 0; 0; 1; 0; 0; 0; 1] [] [] false
           3 4 [1; 0; 0; 0; 1; 0; 0; 0; 1]
           eq_refl eq_refl eq_refl eq_refl eq_refl).
Defined.

(** ** PosReward *)

(** X19.  [PosReward.__call__] hands back the entries of the observation
    unchanged: for one index the entry at that index, for an array of
    indices the array of the entries, one per index and in the order of the
    indices; it raises [IndexError] when an index is not an index of the
    observation. *)
Theorem PosReward_passthrough :
  forall (self : PosReward.t) (state action next_state : list R)
         (absorbing : bool),
    let result := PosReward.call self state action next_state absorbing in
    (forall i, self.(PosReward.pos_idx) = Idx i ->
       (in_range (length state) i ->
        exists v, getitem state i = Ok v /\ result = Ok (np.Scalar v))
       /\ (~ in_range (length state) i -> result = Raise IndexError))
    /\ (forall l, self.(PosReward.pos_idx) = Idxs l ->
          (Forall (in_range (length state)) l ->
           exists vs, result = Ok (np.Array vs)
                      /\ length vs = length l
                      /\ Forall2 (fun i v => getitem state i = Ok v) l vs)
          /\ (Exists (fun i => ~ in_range (length state) i) l ->
              result = Raise IndexError)).
Proof.
  intros self state action next_state absorbing result. subst result.
  unfold PosReward.call. split.
  - intros i E. rewrite E. cbn [getindex]. split; intros Hi.
    + destruct (getitem_Ok state i Hi) as (v & Ev). exists v.
      now rewrite Ev.
    + now rewrite (getitem_IndexError state i Hi).
  - intros l E. rewrite E. cbn [getindex]. split; intros Hl.
    + destruct (getitems_Ok state l Hl) as (vs & Evs & F). exists vs.
      rewrite Evs. repeat split; [|exact F].
      symmetry. now apply Forall2_length in F.
    + now rewrite (getitems_IndexError state l Hl).
Qed.

Lemma PosReward_passthrough_witness :
  exists vs,
    PosReward.call (PosReward.init (Idxs [2; -1; 0]%Z)) [7; 8; 9] [] [] false
    = Ok (np.Array vs)
    /\ length vs = 3%nat
    /\ Forall2 (fun i v => getitem [7; 8; 9] i = Ok v) [2; -1; 0]%Z vs.
Proof.
  refine (proj1 (proj2 (PosReward_passthrough
                          (PosReward.init (Idxs [2; -1; 0]%Z)) [7; 8; 9] [] []
                          false) [2; -1; 0]%Z eq_refl) _).
  repeat constructor; unfold in_range; simpl; lia.
Defined.

(** ** ModulationDifferencePenalty: the cached cycle progress *)

Lemma ModulationDifferencePenalty_init_inv modulator predictors scale ft self :
  ModulationDifferencePenalty.init modulator predictors scale ft = Ok self ->
  self.(ModulationDifferencePenalty.cycle_percentage_predictors) = predictors
  /\ self.(ModulationDifferencePenalty.action_space_modulator) = modulator
  /\ self.(ModulationDifferencePenalty.cycle_progress)
     = repeat 0 (length predictors)
  /\ self.(ModulationDifferencePenalty.reward_scale) = kwarg 1 scale
  /\ (self.(ModulationDifferencePenalty.func) = np.abs
      \/ self.(ModulationDifferencePenalty.func) = np.square).
Proof.
  unfold ModulationDifferencePenalty.init, np.zeros.
  destruct (String.eqb _ "abs"); [|destruct (String.eqb _ "squared")];
    intros H; inversion H; subst; simpl; auto 6.
Qed.

(** X20.  The cached cycle progress of a [ModulationDifferencePenalty] has
    one entry per predictor at all times: the constructor fills it with
    zeros, one per predictor, and every call stores one result per
    predictor and keeps the list of predictors. *)
Theorem cycle_progress_one_per_predictor :
  (forall modulator predictors scale ft self,
      ModulationDifferencePenalty.init modulator predictors scale ft = Ok self ->
      self.(ModulationDifferencePenalty.cycle_progress)
      = repeat 0 (length predictors)
      /\ length self.(ModulationDifferencePenalty.cycle_progress)
         = length self.(ModulationDifferencePenalty.cycle_percentage_predictors))
  /\ (forall self state action next_state absorbing,
        let self' := snd (ModulationDifferencePenalty.call self state action
                            next_state absorbing) in
        self'.(ModulationDifferencePenalty.cycle_percentage_predictors)
        = self.(ModulationDifferencePenalty.cycle_percentage_predictors)
        /\ length self'.(ModulationDifferencePenalty.cycle_progress)
           = length self'.(ModulationDifferencePenalty.cycle_percentage_predictors)).
Proof.
  split.
  - intros modulator predictors scale ft self Hinit.
    destruct (ModulationDifferencePenalty_init_inv _ _ _ _ _ Hinit)
      as (Ep & _ & Ec & _).
    rewrite Ec, Ep. split; [reflexivity | apply repeat_length].
  - intros self state action next_state absorbing self'. subst self'.
    unfold ModulationDifferencePenalty.call. cbn. split; [reflexivity|].
    apply length_map.
Qed.

Lemma cycle_progress_one_per_predictor_witness :
  (ModulationDifferencePenalty.cycle_progress
     {| ModulationDifferencePenalty.cycle_percentage_predictors :=
          [ {| predict_cycle_percentage := fun s => nth 0 s 0 |};
            {| predict_cycle_percentage := fun s => nth 1 s 0 |} ];
        ModulationDifferencePenalty.action_space_modulator :=
          {| modulate_action := fun a _ => a |};
        ModulationDifferencePenalty.cycle_progress := [0; 0];
        ModulationDifferencePenalty.reward_scale := 1;
        ModulationDifferencePenalty.func := np.abs |})
  = repeat 0 2
  /\ length [0; 0] = 2%nat.
Proof.
  exact (proj1 cycle_progress_one_per_predictor
           {| modulate_action := fun a _ => a |}
           [ {| predict_cycle_percentage := fun s => nth 0 s 0 |};
             {| predict_cycle_percentage := fun s => nth 1 s 0 |} ]
           None None _ eq_refl).
Defined.

Lemma modulation_call_eq (self : ModulationDifferencePenalty.t)
    (state action next_state : list R) (absorbing : bool) :
  let progress := map (fun channel => channel.(predict_cycle_percentage) state)
                      self.(ModulationDifferencePenalty.cycle_percentage_predictors) in
  let modulated :=
    self.(ModulationDifferencePenalty.action_space_modulator).(modulate_action)
      action progress in
  ModulationDifferencePenalty.call self state action next_state absorbing
  = (diff <- np.subtract (np.Array action) (np.Array modulated) ;;
     Ok (-1 * self.(ModulationDifferencePenalty.reward_scale)
         * np.sum (self.(ModulationDifferencePenalty.func) diff)),
     ModulationDifferencePenalty.set_cycle_progress self progress).
Proof. reflexivity. Qed.

(** X21.  The cached cycle progress is written by a call and never read
    before it is written: the value a call returns and the object it leaves
    do not depend on the cycle progress cached before the call, so the
    reward of a step does not depend on the observations of earlier
    steps. *)
Theorem cycle_progress_write_only :
  forall (self : ModulationDifferencePenalty.t) (cached : list R)
         (state action next_state : list R) (absorbing : bool),
    ModulationDifferencePenalty.call
      (ModulationDifferencePenalty.set_cycle_progress self cached)
      state action next_state absorbing
    = ModulationDifferencePenalty.call self state action next_state absorbing
    /\ (forall state0 action0 next_state0 absorbing0,
          ModulationDifferencePenalty.call
            (snd (ModulationDifferencePenalty.call self state0 action0
                    next_state0 absorbing0))
            state action next_state absorbing
          = ModulationDifferencePenalty.call self state action next_state
              absorbing).
Proof.
  intros self cached state action next_state absorbing. split.
  - rewrite !modulation_call_eq. reflexivity.
  - intros state0 action0 next_state0 absorbing0.
    rewrite (modulation_call_eq self state0). cbn [snd].
    rewrite !modulation_call_eq. reflexivity.
Qed.

(** X22.  When the modulator returns an action whose length cannot be
    broadcast against the action, [ModulationDifferencePenalty.__call__]
    raises [ValueError], and the cached cycle progress has been replaced by
    the results of the predictors all the same. *)
Theorem ModulationDifferencePenalty_raises_after_caching :
  forall (self : ModulationDifferencePenalty.t)
         (state action next_state : list R) (absorbing : bool),
    let progress := map (fun channel => channel.(predict_cycle_percentage) state)
                        self.(ModulationDifferencePenalty.cycle_percentage_predictors) in
    let modulated :=
      self.(ModulationDifferencePenalty.action_space_modulator).(modulate_action)
        action progress in
    shape_mismatch (length action) (length modulated) ->
    fst (ModulationDifferencePenalty.call self state action next_state absorbing)
    = Raise ValueError
    /\ (snd (ModulationDifferencePenalty.call self state action next_state
               absorbing)).(ModulationDifferencePenalty.cycle_progress)
       = progress.
Proof.
  intros self state action next_state absorbing progress modulated Hbad.
  rewrite modulation_call_eq. fold progress. fold modulated.
  cbn [fst snd]. unfold np.subtract.
  rewrite (broadcast2_mismatch _ _ _ Hbad). split; reflexivity.
Qed.

Lemma ModulationDifferencePenalty_raises_after_caching_witness :
  fst (ModulationDifferencePenalty.call
         {| ModulationDifferencePenalty.cycle_percentage_predictors :=
              [ {| predict_cycle_percentage := fun s => nth 0 s 0 |} ];
            ModulationDifferencePenalty.action_space_modulator :=
              {| modulate_action := fun a progress => a ++ progress ++ progress |};
            ModulationDifferencePenalty.cycle_progress := [0];
            ModulationDifferencePenalty.reward_scale := 1;
            ModulationDifferencePenalty.func := np.abs |}
         [5] [1; 2] [] false)
  = Raise ValueError
  /\ (snd (ModulationDifferencePenalty.call
             {| ModulationDifferencePenalty.cycle_percentage_predictors :=
                  [ {| predict_cycle_percentage := fun s => nth 0 s 0 |} ];
                ModulationDifferencePenalty.action_space_modulator :=
                  {| modulate_action := fun a progress => a ++ progress ++ progress |};
                ModulationDifferencePenalty.cycle_progress := [0];
                ModulationDifferencePenalty.reward_scale := 1;
                ModulationDifferencePenalty.func := np.abs |}
             [5] [1; 2] [] false)).(ModulationDifferencePenalty.cycle_progress)
     = [5].
Proof.
  refine (ModulationDifferencePenalty_raises_after_caching
            {| ModulationDifferencePenalty.cycle_percentage_predictors :=
                 [ {| predict_cycle_percentage := fun s => nth 0 s 0 |} ];
               ModulationDifferencePenalty.action_space_modulator :=
                 {| modulate_action := fun a progress => a ++ progress ++ progress |};
               ModulationDifferencePenalty.cycle_progress := [0];
               ModulationDifferencePenalty.reward_scale := 1;
               ModulationDifferencePenalty.func := np.abs |}
            [5] [1; 2] [] false _).
  unfold shape_mismatch; simpl; lia.
Defined.

(** X23.  For a [ModulationDifferencePenalty] built by its constructor
    with a positive [reward_scale] and a modulator that keeps the length of
    the action, the reward is never positive and it is zero when the
    modulator returns the action unchanged; with the absolute value as
    penalty and a [reward_scale] of at least one, the reward is zero only
    then. *)
Theorem ModulationDifferencePenalty_zero_when_unmodulated :
  forall (modulator : ActionSpaceModulator)
         (predictors : list CyclePercentagePredictor)
         (scale : option R) (ft : option string)
         (self : ModulationDifferencePenalty.t)
         (state action next_state : list R) (absorbing : bool),
    ModulationDifferencePenalty.init modulator predictors scale ft = Ok self ->
    0 < kwarg 1 scale ->
    let modulated :=
      modulator.(modulate_action) action
        (map (fun channel => channel.(predict_cycle_percentage) state) predictors) in
    length modulated = length action ->
    exists r,
      fst (ModulationDifferencePenalty.call self state action next_state absorbing)
      = Ok r
      /\ r <= 0
      /\ (modulated = action -> r = 0)
      /\ (self.(ModulationDifferencePenalty.func) = np.abs ->
          1 <= kwarg 1 scale -> r = 0 -> modulated = action).
Proof.
  intros modulator predictors scale ft self state action next_state absorbing
    Hinit Hscale modulated Hlen.
  destruct (ModulationDifferencePenalty_init_inv _ _ _ _ _ Hinit)
    as (Ep & Em & _ & Es & Hf).
  rewrite modulation_call_eq. cbn [fst]. rewrite Ep, Em, Es. fold modulated.
  unfold np.subtract. rewrite broadcast2_arrays by congruence.
  rewrite bind_Ok, zip_with_combine.
  destruct (penalty_sum _ Hf) as (g & Hsum & g0 & gnn & gpos).
  rewrite Hsum. eexists; split; [reflexivity|].
  set (diffs := map (fun c => fst c - snd c) (combine action modulated)).
  assert (Forall (fun x => 0 <= x) (map g diffs)) as Hnn
    by (rewrite Forall_map; apply Forall_forall; intros c _; apply gnn).
  pose proof (sum_list_nonneg _ Hnn) as Hsum_nn.
  split; [nra|].
  pose proof (combine_no_difference action modulated ltac:(congruence)) as Hsame.
  split.
  - intros Heq. symmetry in Heq. apply Hsame in Heq.
    rewrite sum_list_zero; [lra|].
    subst diffs. rewrite !Forall_map.
    eapply Forall_impl; [|exact Heq]. intros c Hc. cbv beta.
    now rewrite Hc.
  - intros _ _ Hr. symmetry. apply Hsame.
    assert (np.sum_list (map g diffs) = 0) as Hz by nra.
    apply sum_list_zero_inv in Hz; [|exact Hnn].
    subst diffs. rewrite !Forall_map in Hz.
    eapply Forall_impl; [|exact Hz]. intros c Hc. cbv beta in Hc.
    destruct (Req_dec (fst c - snd c) 0) as [E|E]; [exact E|].
    apply gpos in E. lra.
Qed.

Lemma ModulationDifferencePenalty_zero_when_unmodulated_witness :
  exists r,
    fst (ModulationDifferencePenalty.call
           {| ModulationDifferencePenalty.cycle_percentage_predictors :=
                [ {| predict_cycle_percentage := fun s => nth 0 s 0 |} ];
              ModulationDifferencePenalty.action_space_modulator :=
                {| modulate_action := fun a _ => a |};
              ModulationDifferencePenalty.cycle_progress := [0];
              ModulationDifferencePenalty.reward_scale := 1;
              ModulationDifferencePenalty.func := np.abs |}
           [5] [1; 2] [] false) = Ok r
    /\ r <= 0
    /\ ([1; 2] = [1; 2] -> r = 0)
    /\ (np.abs = np.abs -> 1 <= 1 -> r = 0 -> [1; 2] = [1; 2]).
Proof.
  refine (ModulationDifferencePenalty_zero_when_unmodulated
            {| modulate_action := fun a _ => a |}
            [ {| predict_cycle_percentage := fun s => nth 0 s 0 |} ]
            None None _ [5] [1; 2] [] false eq_refl _ eq_refl).
  simpl; lra.
Defined.
